(** * The edit-expense verification flow

    A shallow embedding of [jules-scratch/verification/verify_edit_expense.py]:
    one routine, [run_verification], that drives a headless browser through a
    fixed script against a dashboard served at a local URL, writes four
    screenshots, and closes the browser in a [finally] clause.

    The script is pure control flow around calls into the browser automation
    library.  The embedding therefore has three layers:

    - the data the script builds itself (locators, paths, the URL);
    - the environment the calls act on (the driver, the browser, the rendered
      page, the file system), as a record of transition functions over an
      opaque world;
    - a state-and-exception monad in which the Python control constructs
      ([with], [try]/[finally], sequencing, raising) are written out. *)

From stdpp Require Import base strings list gmap.
From Equations Require Import Equations.

Set Default Proof Using "Type".

(** ** Data built by the script *)

(** A locator is a lazy query: building one never touches the page.  The
    script builds them with [page.get_by_role(role, name=...)],
    [page.get_by_text(text)] and the [.first] property. *)
Inductive locator :=
| GetByRole (role name : string)
| GetByText (text : string)
| First (l : locator).

(** The library calls the script issues, with their arguments. *)
Inductive call :=
| CStart                       (* sync_playwright().__enter__ *)
| CLaunch (headless : bool)    (* p.chromium.launch(headless=...) *)
| CNewPage                     (* browser.new_page() *)
| CGoto (url : string)         (* page.goto(url) *)
| CScreenshot (path : string)  (* page.screenshot(path=...) *)
| CClick (l : locator)         (* locator.click() *)
| CExpectVisible (l : locator) (* expect(locator).to_be_visible() *)
| CGoBack                      (* page.go_back() *)
| CClose                       (* browser.close() *)
| CStop.                       (* sync_playwright().__exit__ *)

(** What a call can raise. *)
Inductive error :=
| StartError
| LaunchError
| PageError
| NavigationError (target : option string)   (* [None]: backward in history *)
| ElementNotFound (l : locator)
| StrictModeViolation (l : locator) (matches : nat)
| AssertionTimeout (l : locator) (timeout_ms : nat)
| ScreenshotWriteError (path : string).

(** One entry of the run's log: a call that returned, or a call that raised. *)
Inductive event :=
| Returned (c : call)
| Threw (c : call) (e : error).

#[global] Instance locator_eq_dec : EqDecision locator.
Proof. solve_decision. Defined.
#[global] Instance call_eq_dec : EqDecision call.
Proof. solve_decision. Defined.
#[global] Instance error_eq_dec : EqDecision error.
Proof. solve_decision. Defined.
#[global] Instance event_eq_dec : EqDecision event.
Proof. solve_decision. Defined.

(** An interactive control of the rendered page. *)
Record control := Control {
  c_role : string;   (* ARIA role *)
  c_name : string;   (* accessible name *)
  c_text : string;   (* text content *)
  c_id : nat         (* identity of the node *)
}.

#[global] Instance control_eq_dec : EqDecision control.
Proof. solve_decision. Defined.

(** A screenshot is a sequence of bytes. *)
Definition image : Type := list Byte.byte.

(** Outcome of a Python computation: a value, or a raised exception. *)
Inductive outcome (A : Type) :=
| Ok (a : A)
| Raised (e : error).
Arguments Ok {A} a.
Arguments Raised {A} e.

(** ** The environment

    Everything the script does not own: the automation driver, the browser
    process, the dashboard's rendered page and the disk.  The world is opaque;
    each library call is a transition on it that also says whether the call
    succeeded.  The release calls ([browser.close()] and leaving the
    [sync_playwright] scope) are total: the error taxonomy of the flow has no
    release failure. *)
Record Env := {
  world : Type;
  env_start : world → bool * world;
  env_launch : bool → world → bool * world;
  env_new_page : world → bool * world;
  env_goto : string → world → bool * world;
  env_go_back : world → bool * world;
  (* pixels captured and handed to the disk, or a failed write *)
  env_screenshot : string → world → option image * world;
  (* interactive controls of the rendered page, in document order *)
  dom : world → list control;
  (* the page's reaction to a click dispatched to a control *)
  env_activate : control → world → world;
  (* is the locator's target visible right now *)
  visible : locator → world → bool;
  (* the page while the script sleeps for that many milliseconds *)
  env_sleep : nat → world → world;
  env_close : world → world;
  env_stop : world → world;
  (* the assertion library's wait window and polling interval, in ms *)
  expect_timeout : nat;
  poll_interval : nat;
  poll_interval_pos : 0 < poll_interval
}.

(** ** Locator resolution

    Modelled from the spec: the automation library's element lookup is not
    part of the repository.  A role locator matches the controls with that
    role and accessible name, in document order; [.first] narrows a locator
    to its first match. *)
Definition matches_role (role name : string) (c : control) : bool :=
  bool_decide (c_role c = role) && bool_decide (c_name c = name).

Definition matches_text (text : string) (c : control) : bool :=
  bool_decide (c_text c = text).

Fixpoint resolve (l : locator) (page_dom : list control) : list control :=
  match l with
  | GetByRole role name => filter (λ c, matches_role role name c = true) page_dom
  | GetByText text => filter (λ c, matches_text text c = true) page_dom
  | First l' => take 1 (resolve l' page_dom)
  end.

Section Flow.

Context (E : Env).

(** ** Run state *)
Record state := State {
  st_world : world E;
  st_fs : gmap string image;      (* files on disk, by path *)
  st_trace : list event;          (* log of library calls, oldest first *)
  st_hits : list control          (* controls clicks were dispatched to *)
}.

Definition set_world (w : world E) (s : state) : state :=
  {| st_world := w; st_fs := st_fs s; st_trace := st_trace s; st_hits := st_hits s |}.

Definition log (ev : event) (s : state) : state :=
  {| st_world := st_world s; st_fs := st_fs s;
     st_trace := st_trace s ++ [ev]; st_hits := st_hits s |}.

Definition write_file (path : string) (img : image) (s : state) : state :=
  {| st_world := st_world s; st_fs := <[path := img]> (st_fs s);
     st_trace := st_trace s; st_hits := st_hits s |}.

Definition hit (c : control) (s : state) : state :=
  {| st_world := st_world s; st_fs := st_fs s;
     st_trace := st_trace s; st_hits := st_hits s ++ [c] |}.

(** ** The monad: state passing with exceptions *)
Definition M (A : Type) : Type := state → outcome A * state.

#[export] Instance M_ret : MRet M := λ A a s, (Ok a, s).

#[export] Instance M_bind : MBind M := λ A B f m s,
  match m s with
  | (Ok a, s') => f a s'
  | (Raised e, s') => (Raised e, s')
  end.

(** [try: body finally: cleanup].  The cleanup runs on both exits; the body's
    outcome is the statement's outcome unless the cleanup itself raises. *)
Definition try_finally {A} (body : M A) (cleanup : M unit) : M A := λ s,
  let '(r, s1) := body s in
  match cleanup s1 with
  | (Ok _, s2) => (r, s2)
  | (Raised e, s2) => (Raised e, s2)
  end.

(** [with manager as x: body].  [__exit__] runs on both exits of the body and
    does not swallow the exception; a failed [__enter__] skips both. *)
Definition with_ {R A} (enter : M R) (exit : M unit) (body : R → M A) : M A :=
  r ← enter; try_finally (body r) exit.

(** A library call that the environment lets succeed or fail. *)
Definition api (c : call) (e : error) (f : world E → bool * world E) : M unit := λ s,
  let '(ok, w) := f (st_world s) in
  if ok then (Ok (), log (Returned c) (set_world w s))
  else (Raised e, log (Threw c e) (set_world w s)).

(** A library call that always returns. *)
Definition api_total (c : call) (f : world E → world E) : M unit := λ s,
  (Ok (), log (Returned c) (set_world (f (st_world s)) s)).

(** ** The library surface used by the script *)
Inductive playwright := Playwright.
Inductive browser_type := Chromium.
Inductive browser := Browser.
Inductive page := Page.
Inductive locator_assertions := Expect (l : locator).

Definition sync_playwright_enter : M playwright :=
  api CStart StartError (env_start E);; mret Playwright.
Definition sync_playwright_exit : M unit := api_total CStop (env_stop E).

Definition chromium (p : playwright) : browser_type := Chromium.

Definition launch (bt : browser_type) (headless : bool) : M browser :=
  api (CLaunch headless) LaunchError (env_launch E headless);; mret Browser.

Definition new_page (b : browser) : M page :=
  api CNewPage PageError (env_new_page E);; mret Page.

Definition close (b : browser) : M unit := api_total CClose (env_close E).

Definition goto (pg : page) (url : string) : M unit :=
  api (CGoto url) (NavigationError (Some url)) (env_goto E url).

Definition go_back (pg : page) : M unit :=
  api CGoBack (NavigationError None) (env_go_back E).

(** [page.screenshot(path=...)]: capture, then write the file at [path],
    replacing what was there.  Modelled from the spec: the file write is the
    library's; a screenshot overwrites any prior file at its path. *)
Definition screenshot (pg : page) (path : string) : M unit := λ s,
  let '(r, w) := env_screenshot E path (st_world s) in
  match r with
  | Some img => (Ok (), log (Returned (CScreenshot path)) (write_file path img (set_world w s)))
  | None => (Raised (ScreenshotWriteError path),
             log (Threw (CScreenshot path) (ScreenshotWriteError path)) (set_world w s))
  end.

Definition get_by_role (pg : page) (role name : string) : locator := GetByRole role name.
Definition get_by_text (pg : page) (text : string) : locator := GetByText text.
Definition first (l : locator) : locator := First l.
Definition expect (l : locator) : locator_assertions := Expect l.

(** [locator.click()].  Modelled from the spec: the lookup behind a click is
    the library's.  No match is an element-not-found failure; a locator that
    matches several controls is ambiguous and the click is refused; a single
    match receives the click. *)
Definition click (l : locator) : M unit := λ s,
  match resolve l (dom E (st_world s)) with
  | [] => (Raised (ElementNotFound l), log (Threw (CClick l) (ElementNotFound l)) s)
  | [c] => (Ok (), log (Returned (CClick l))
                     (hit c (set_world (env_activate E c (st_world s)) s)))
  | (_ :: _ :: _) as cs =>
      (Raised (StrictModeViolation l (length cs)),
       log (Threw (CClick l) (StrictModeViolation l (length cs))) s)
  end.

(** [expect(locator).to_be_visible()].  Modelled from the spec: the polling
    wait is the library's.  The visibility check is retried, one polling
    interval apart, until it succeeds or the wait window has elapsed.  The
    result carries the number of checks made. *)
Equations? poll (l : locator) (elapsed : nat) (w : world E) : bool * nat * world E
  by wf (expect_timeout E - elapsed) lt :=
  poll l elapsed w with visible E l w := {
    | true => (true, 1, w)
    | false with le_lt_dec (expect_timeout E) elapsed := {
        | left _ => (false, 1, w)
        | right _ =>
            let '(ok, n, w') :=
              poll l (elapsed + poll_interval E) (env_sleep E (poll_interval E) w) in
            (ok, S n, w') } }.
Proof. pose proof (poll_interval_pos E). lia. Qed.

Definition to_be_visible (a : locator_assertions) : M unit := λ s,
  let 'Expect l := a in
  let '(ok, _, w) := poll l 0 (st_world s) in
  if ok then (Ok (), log (Returned (CExpectVisible l)) (set_world w s))
  else (Raised (AssertionTimeout l (expect_timeout E)),
        log (Threw (CExpectVisible l) (AssertionTimeout l (expect_timeout E)))
            (set_world w s)).

(** ** The script *)
Definition run_verification : M unit :=
  with_ sync_playwright_enter sync_playwright_exit (λ p,
    browser ← launch (chromium p) true;
    page ← new_page browser;
    try_finally
      ((* 1. Navigate to the dashboard *)
       goto page "http://localhost:8081";;
       screenshot page "jules-scratch/verification/dashboard-page.png";;
       (* 2. Click the edit button on the first expense *)
       let edit_button := first (get_by_role page "button" "Edit") in
       click edit_button;;
       (* 3. Verify that the "Edit Expense" page is loaded *)
       to_be_visible (expect (get_by_text page "Edit Expense"));;
       (* 4. Take a screenshot *)
       screenshot page "jules-scratch/verification/edit-expense-page.png";;
       (* 5. Click the "Update Expense" button *)
       let update_button := get_by_role page "button" "Update Expense" in
       click update_button;;
       (* 6. Verify that the "No Changes" alert is shown *)
       to_be_visible (expect (get_by_text page "No Changes"));;
       (* 7. Take another screenshot *)
       screenshot page "jules-scratch/verification/no-changes-alert.png";;
       (* 8. Click the back button *)
       go_back page;;
       (* 9. Verify that the "Discard changes?" alert is shown *)
       to_be_visible (expect (get_by_text page "Discard changes?"));;
       (* 10. Take a third screenshot *)
       screenshot page "jules-scratch/verification/discard-changes-alert.png")
      (close browser)).

End Flow.

Arguments State {E} _ _ _ _.
Arguments st_world {E} _.
Arguments st_fs {E} _.
Arguments st_trace {E} _.
Arguments st_hits {E} _.

(** ** The entry point: [if __name__ == "__main__": run_verification()]

    The module body reads neither the argument vector nor the process
    environment.  An exception that reaches the top level ends the process
    with status 1; falling off the end of the module ends it with status 0. *)
Definition module_main (E : Env) (name : string) (argv : list string)
    (environ : gmap string string) (s : state E) : Z * state E :=
  if bool_decide (name = "__main__") then
    match run_verification E s with
    | (Ok _, s') => (0%Z, s')
    | (Raised _, s') => (1%Z, s')
    end
  else (0%Z, s).

(** ** A simulated dashboard

    A small executable environment: a dashboard with a number of expense
    rows, an edit view, and two alerts.  Its knobs let every failure of the
    flow be exercised on concrete runs. *)
Module Sim.

Inductive view := Blank | DashboardView | EditView | NoChangesView | DiscardView.

Record sim := {
  driver_ok : bool;        (* the automation driver starts *)
  launch_ok : bool;        (* the browser launches *)
  page_ok : bool;          (* a page can be created *)
  server_up : bool;        (* the dashboard answers at its URL *)
  rows : nat;              (* expense rows, one Edit button each *)
  update_buttons : nat;    (* Update Expense buttons of the edit view *)
  disk_budget : nat;       (* screenshots the disk still accepts *)
  render_delay : nat;      (* ms before a new view's text shows *)
  guard_back : bool;       (* leaving the edit view asks for confirmation *)
  cur : view;
  waited : nat             (* ms since the last change of view *)
}.

Definition show (v : view) (w : sim) : sim :=
  {| driver_ok := driver_ok w; launch_ok := launch_ok w; page_ok := page_ok w;
     server_up := server_up w; rows := rows w; update_buttons := update_buttons w;
     disk_budget := disk_budget w; render_delay := render_delay w;
     guard_back := guard_back w; cur := v; waited := 0 |}.

Definition idle (ms : nat) (w : sim) : sim :=
  {| driver_ok := driver_ok w; launch_ok := launch_ok w; page_ok := page_ok w;
     server_up := server_up w; rows := rows w; update_buttons := update_buttons w;
     disk_budget := disk_budget w; render_delay := render_delay w;
     guard_back := guard_back w; cur := cur w; waited := waited w + ms |}.

Definition spend (w : sim) : sim :=
  {| driver_ok := driver_ok w; launch_ok := launch_ok w; page_ok := page_ok w;
     server_up := server_up w; rows := rows w; update_buttons := update_buttons w;
     disk_budget := pred (disk_budget w); render_delay := render_delay w;
     guard_back := guard_back w; cur := cur w; waited := waited w |}.

Definition edit_button (i : nat) : control :=
  {| c_role := "button"; c_name := "Edit"; c_text := "Edit"; c_id := i |}.
Definition update_button (i : nat) : control :=
  {| c_role := "button"; c_name := "Update Expense"; c_text := "Update Expense";
     c_id := 100 + i |}.
Definition add_button : control :=
  {| c_role := "button"; c_name := "Add Expense"; c_text := "Add"; c_id := 99 |}.

Definition sim_dom (w : sim) : list control :=
  match cur w with
  | DashboardView => add_button :: (edit_button <$> seq 0 (rows w))
  | EditView | NoChangesView => update_button <$> seq 0 (update_buttons w)
  | _ => []
  end.

Definition sim_activate (c : control) (w : sim) : sim :=
  match cur w with
  | DashboardView => if bool_decide (c_name c = "Edit") then show EditView w else w
  | EditView => if bool_decide (c_name c = "Update Expense") then show NoChangesView w else w
  | _ => w
  end.

Definition shown_text (v : view) : string :=
  match v with
  | Blank => ""
  | DashboardView => "Expenses"
  | EditView => "Edit Expense"
  | NoChangesView => "No Changes"
  | DiscardView => "Discard changes?"
  end.

Definition sim_visible (l : locator) (w : sim) : bool :=
  match l with
  | GetByText t => bool_decide (shown_text (cur w) = t) && (render_delay w <=? waited w)
  | _ => bool_decide (resolve l (sim_dom w) ≠ [])
  end.

Definition pixels (v : view) : image :=
  match v with
  | Blank => []
  | DashboardView => [Byte.x01]
  | EditView => [Byte.x02]
  | NoChangesView => [Byte.x03]
  | DiscardView => [Byte.x04]
  end.

Definition sim_screenshot (path : string) (w : sim) : option image * sim :=
  match disk_budget w with
  | 0 => (None, w)
  | S _ => (Some (pixels (cur w)), spend w)
  end.

Definition sim_go_back (w : sim) : bool * sim :=
  match cur w with
  | EditView | NoChangesView =>
      (true, if guard_back w then show DiscardView w else show DashboardView w)
  | _ => (false, w)
  end.

Definition sim_goto (url : string) (w : sim) : bool * sim :=
  if server_up w then (true, show DashboardView w) else (false, w).

Definition env : Env := {|
  world := sim;
  env_start := λ w : sim, (driver_ok w, w);
  env_launch := λ (_ : bool) (w : sim), (launch_ok w, w);
  env_new_page := λ w : sim, (page_ok w, w);
  env_goto := sim_goto;
  env_go_back := sim_go_back;
  env_screenshot := sim_screenshot;
  dom := sim_dom;
  env_activate := sim_activate;
  visible := sim_visible;
  env_sleep := idle;
  env_close := show Blank;
  env_stop := λ w : sim, w;
  expect_timeout := 5000;
  poll_interval := 100;
  poll_interval_pos := Nat.lt_0_succ 99
|}.

Definition dashboard (drv lch pg srv : bool) (n_rows n_update budget delay : nat)
    (guard : bool) : sim :=
  {| driver_ok := drv; launch_ok := lch; page_ok := pg; server_up := srv;
     rows := n_rows; update_buttons := n_update; disk_budget := budget;
     render_delay := delay; guard_back := guard; cur := Blank; waited := 0 |}.

(** A healthy dashboard with the given numbers of rows and update buttons. *)
Definition healthy (n_rows n_update : nat) : sim :=
  dashboard true true true true n_rows n_update 4 250 true.

(** Broken set-ups, one per failure. *)
Definition no_driver : sim := dashboard false true true true 1 1 4 250 true.
Definition no_browser : sim := dashboard true false true true 1 1 4 250 true.
Definition no_page : sim := dashboard true true false true 1 1 4 250 true.
Definition offline : sim := dashboard true true true false 1 1 4 250 true.
Definition full_disk : sim := dashboard true true true true 1 1 2 250 true.
Definition sluggish : sim := dashboard true true true true 1 1 4 (60 * 100) true.
Definition unguarded : sim := dashboard true true true true 1 1 4 250 false.

Definition boot (w : sim) : state env := @State env w ∅ [] [].

End Sim.

(** ** Reading a log *)

Definition ev_call (ev : event) : call :=
  match ev with Returned c | Threw c _ => c end.

Definition is_returned (ev : event) : bool :=
  match ev with Returned _ => true | Threw _ _ => false end.

Definition is_launch (ev : event) : bool :=
  match ev with Returned (CLaunch _) => true | _ => false end.

Definition is_close (ev : event) : bool :=
  match ev with Returned CClose => true | _ => false end.

Definition is_scope_exit (ev : event) : bool :=
  match ev with Returned CStop => true | _ => false end.

(** Browsers handed out by [launch], calls of [browser.close()], and exits
    from the [sync_playwright] scope in a log. *)
Definition acquired (t : list event) : nat := length (filter is_launch t).
Definition released (t : list event) : nat := length (filter is_close t).
Definition scope_exits (t : list event) : nat := length (filter is_scope_exit t).

(** Paths of the screenshots that were written, oldest first. *)
Definition written (t : list event) : list string :=
  omap (λ ev, match ev with Returned (CScreenshot p) => Some p | _ => None end) t.

(** How often a call was issued. *)
Definition issued (c : call) (t : list event) : nat :=
  length (filter (λ ev, ev_call ev = c) t).

(** ** The script as data

    The calls of the guarded region, in program order, and an interpreter for
    lists of calls.  [run_verification] is shown below to run exactly this
    list between page creation and [browser.close()]. *)
Definition dashboard_url : string := "http://localhost:8081".
Definition shots_dir : string := "jules-scratch/verification/".
Definition edit_locator : locator := First (GetByRole "button" "Edit").
Definition update_locator : locator := GetByRole "button" "Update Expense".

Definition script : list call :=
  [ CGoto dashboard_url;
    CScreenshot (shots_dir +:+ "dashboard-page.png");
    CClick edit_locator;
    CExpectVisible (GetByText "Edit Expense");
    CScreenshot (shots_dir +:+ "edit-expense-page.png");
    CClick update_locator;
    CExpectVisible (GetByText "No Changes");
    CScreenshot (shots_dir +:+ "no-changes-alert.png");
    CGoBack;
    CExpectVisible (GetByText "Discard changes?");
    CScreenshot (shots_dir +:+ "discard-changes-alert.png") ].

(** The calls before the guarded region, and the whole of a complete run. *)
Definition setup : list call := [CStart; CLaunch true; CNewPage].
Definition complete_run : list call := setup ++ script ++ [CClose; CStop].

Section Interpreter.

Context (E : Env).

Definition perform (c : call) : M E unit :=
  match c with
  | CStart => sync_playwright_enter E;; mret ()
  | CLaunch h => launch E Chromium h;; mret ()
  | CNewPage => new_page E Browser;; mret ()
  | CGoto u => goto E Page u
  | CScreenshot p => screenshot E Page p
  | CClick l => click E l
  | CExpectVisible l => to_be_visible E (expect l)
  | CGoBack => go_back E Page
  | CClose => close E Browser
  | CStop => sync_playwright_exit E
  end.

Fixpoint perform_all (cs : list call) : M E unit :=
  match cs with
  | [] => mret ()
  | c :: cs' => perform c;; perform_all cs'
  end.

(** The state in which the [k]-th call of the guarded region (counting from
    zero) starts, when every call before it has returned. *)
Definition reach (k : nat) : M E unit := perform_all (setup ++ take k script).

(** A run of the script in a fresh process: nothing logged yet. *)
Definition fresh (w : world E) (fs : gmap string image) : state E := State w fs [] [].
Definition run (w : world E) (fs : gmap string image) : outcome unit * state E :=
  run_verification E (fresh w fs).

(** The two release steps that end a run which got its page: the [finally]
    clause, then the exit from the [with] block. *)
Definition teardown (s : state E) : state E :=
  (sync_playwright_exit E (close E Browser s).2).2.

(** Leaving the [with] block alone, as after a failed launch or a failed
    page creation. *)
Definition leave_scope (s : state E) : state E := (sync_playwright_exit E s).2.

(** The same run state over another disk. *)
Definition set_fs (fs : gmap string image) (s : state E) : state E :=
  State (st_world s) fs (st_trace s) (st_hits s).

(** The page as the [k]-th sleep of a polling wait leaves it. *)
Definition after_sleeps (k : nat) (w : world E) : world E :=
  Nat.iter k (env_sleep E (poll_interval E)) w.

End Interpreter.

Arguments perform {E} c.
Arguments perform_all {E} cs.
Arguments reach {E} k.
Arguments fresh {E} w fs.
Arguments run {E} w fs.
Arguments after_sleeps {E} k w.
Arguments teardown {E} s.
Arguments set_fs {E} fs s.
Arguments leave_scope {E} s.

(** The log entry of a call, given how the call ended. *)
Definition outcome_event (c : call) (r : outcome unit) : event :=
  match r with Ok _ => Returned c | Raised e => Threw c e end.

(** Which failure each call can raise.  A failure names the call's own
    argument: the URL, the path, the locator. *)
Definition may_raise (c : call) (e : error) : Prop :=
  match c, e with
  | CStart, StartError => True
  | CLaunch _, LaunchError => True
  | CNewPage, PageError => True
  | CGoto url, NavigationError (Some url') => url = url'
  | CGoBack, NavigationError None => True
  | CScreenshot p, ScreenshotWriteError p' => p = p'
  | CClick l, ElementNotFound l' => l = l'
  | CClick l, StrictModeViolation l' n => l = l' ∧ 2 ≤ n
  | CExpectVisible l, AssertionTimeout l' _ => l = l'
  | _, _ => False
  end.

(** The failures of the flow proper: navigation, element lookup (no match, or
    an ambiguous match), assertion timeout, screenshot write. *)
Definition flow_failure (e : error) : Prop :=
  match e with
  | NavigationError _ | ElementNotFound _ | StrictModeViolation _ _
  | AssertionTimeout _ _ | ScreenshotWriteError _ => True
  | StartError | LaunchError | PageError => False
  end.

(** The calls of the guarded region. *)
Definition in_region (c : call) : bool :=
  match c with
  | CGoto _ | CScreenshot _ | CClick _ | CExpectVisible _ | CGoBack => true
  | CStart | CLaunch _ | CNewPage | CClose | CStop => false
  end.

(** The exits the resource guarantee is stated for: normal completion, or a
    failure of the flow proper. *)
Definition listed_exit (r : outcome unit) : Prop :=
  match r with Ok _ => True | Raised e => flow_failure e end.



(** A sequence of file writes applied to a disk, oldest first. *)
Definition put_all (ws : list (string * image)) (fs : gmap string image) :
    gmap string image :=
  foldl (λ m pi, <[pi.1 := pi.2]> m) fs ws.

(** The four screenshot paths, in program order. *)
Definition shot_paths : list string :=
  [ shots_dir +:+ "dashboard-page.png";
    shots_dir +:+ "edit-expense-page.png";
    shots_dir +:+ "no-changes-alert.png";
    shots_dir +:+ "discard-changes-alert.png" ].

(** The locators the script awaits, in program order. *)
Definition awaited (cs : list call) : list locator :=
  omap (λ c, match c with CExpectVisible l => Some l | _ => None end) cs.

(** The locators a list of calls clicks, in program order. *)
Definition clicked_by (cs : list call) : list locator :=
  omap (λ c, match c with CClick l => Some l | _ => None end) cs.


(** What a list of calls leaves in the log: every call returned, or the calls
    before the first failing one returned and that one raised. *)
Inductive ran : list call → outcome unit → list event → Prop :=
| ran_all cs : ran cs (Ok ()) (Returned <$> cs)
| ran_fail pre c rest e :
    may_raise c e →
    ran (pre ++ c :: rest) (Raised e) ((Returned <$> pre) ++ [Threw c e]).

(** The four exits of a run: the driver does not start; the browser does not
    launch; no page can be created; or the guarded region is entered, and
    left through [browser.close()]. *)
Inductive run_shape : outcome unit → list event → Prop :=
| shape_no_driver :
    run_shape (Raised StartError) [Threw CStart StartError]
| shape_no_browser :
    run_shape (Raised LaunchError)
      [Returned CStart; Threw (CLaunch true) LaunchError; Returned CStop]
| shape_no_page :
    run_shape (Raised PageError)
      [Returned CStart; Returned (CLaunch true); Threw CNewPage PageError; Returned CStop]
| shape_guarded r evs :
    ran script r evs →
    run_shape r ((Returned <$> setup) ++ evs ++ [Returned CClose; Returned CStop]).

(** * Properties *)

(** ** Sequencing *)
Section Sequencing.

Context {E : Env}.
Implicit Types (s : state E).

Lemma bind_ok {A B} (m : M E A) (k : A → M E B) s a s1 :
  m s = (Ok a, s1) → (m ≫= k) s = k a s1.
Proof. intros H. unfold mbind, M_bind. by rewrite H. Qed.

Lemma bind_raised {A B} (m : M E A) (k : A → M E B) s e s1 :
  m s = (Raised e, s1) → (m ≫= k) s = (Raised e, s1).
Proof. intros H. unfold mbind, M_bind. by rewrite H. Qed.

Lemma bind_ret_r (m : M E unit) s : (m;; mret ()) s = m s.
Proof. unfold mbind, M_bind. by destruct (m s) as [[[]|e] s1]. Qed.

Lemma bind_cong {A B} (m : M E A) (k k' : A → M E B) s :
  (∀ a s1, k a s1 = k' a s1) → (m ≫= k) s = (m ≫= k') s.
Proof. intros H. unfold mbind, M_bind. destruct (m s) as [[a|e] s1]; auto. Qed.

(** A sequence returns only if its first part returned. *)
Lemma bind_ok_inv {A B} (m : M E A) (k : A → M E B) s b s2 :
  (m ≫= k) s = (Ok b, s2) → ∃ a s1, m s = (Ok a, s1) ∧ k a s1 = (Ok b, s2).
Proof.
  unfold mbind, M_bind. destruct (m s) as [[a|e] s1]; [eauto | discriminate].
Qed.

Lemma try_finally_cong {A} (b b' : M E A) (c : M E unit) s :
  (∀ s1, b s1 = b' s1) → try_finally E b c s = try_finally E b' c s.
Proof. intros H. unfold try_finally. by rewrite H. Qed.

End Sequencing.

(** ** One log entry per call *)
Section Logging.

Context {E : Env}.
Implicit Types (s : state E).

Lemma api_log c e f s :
  st_trace (api E c e f s).2 = st_trace s ++ [outcome_event c (api E c e f s).1].
Proof. unfold api. destruct (f (st_world s)) as [[] w]; reflexivity. Qed.

Lemma perform_log c s :
  st_trace (perform c s).2 = st_trace s ++ [outcome_event c (perform c s).1].
Proof.
  destruct c; simpl;
    unfold sync_playwright_enter, launch, new_page, goto, go_back, close,
      sync_playwright_exit, screenshot, click, to_be_visible, api, api_total,
      mbind, M_bind, mret, M_ret; simpl.
  - by destruct (env_start E (st_world s)) as [[] w].
  - by destruct (env_launch E headless (st_world s)) as [[] w].
  - by destruct (env_new_page E (st_world s)) as [[] w].
  - by destruct (env_goto E url (st_world s)) as [[] w].
  - by destruct (env_screenshot E path (st_world s)) as [[img|] w].
  - by destruct (resolve l (dom E (st_world s))) as [|c [|c' cs]].
  - by destruct (poll E l 0 (st_world s)) as [[[] n] w].
  - by destruct (env_go_back E (st_world s)) as [[] w].
  - done.
  - done.
Qed.

(** A call raises only its own kind of failure. *)
Lemma perform_raises c s e : (perform c s).1 = Raised e → may_raise c e.
Proof.
  destruct c; simpl;
    unfold sync_playwright_enter, launch, new_page, goto, go_back, close,
      sync_playwright_exit, screenshot, click, to_be_visible, api, api_total,
      mbind, M_bind, mret, M_ret; simpl.
  - destruct (env_start E (st_world s)) as [[] w]; simpl; by intros [= <-].
  - destruct (env_launch E headless (st_world s)) as [[] w]; simpl; by intros [= <-].
  - destruct (env_new_page E (st_world s)) as [[] w]; simpl; by intros [= <-].
  - destruct (env_goto E url (st_world s)) as [[] w]; simpl; by intros [= <-].
  - destruct (env_screenshot E path (st_world s)) as [[img|] w]; simpl; by intros [= <-].
  - destruct (resolve l (dom E (st_world s))) as [|c [|c' cs]]; simpl;
      intros [= <-]; simpl; [done|]. split; [done | lia].
  - destruct (poll E l 0 (st_world s)) as [[[] n] w]; simpl; by intros [= <-].
  - destruct (env_go_back E (st_world s)) as [[] w]; simpl; by intros [= <-].
  - done.
  - done.
Qed.

Lemma ran_cons c cs r evs : ran cs r evs → ran (c :: cs) r (Returned c :: evs).
Proof.
  intros [cs'|pre c' rest e Hce].
  - apply (ran_all (c :: cs')).
  - by apply (ran_fail (c :: pre)).
Qed.

Lemma perform_all_log cs s :
  ∃ evs, st_trace (perform_all cs s).2 = st_trace s ++ evs
         ∧ ran cs (perform_all cs s).1 evs.
Proof.
  revert s. induction cs as [|c cs IH]; intros s.
  - exists []. split; [by rewrite app_nil_r | apply (ran_all [])].
  - pose proof (perform_log c s) as Hc. simpl.
    destruct (perform c s) as [[[]|e] s1] eqn:Hp; simpl in Hc.
    + rewrite (bind_ok _ _ _ _ _ Hp). destruct (IH s1) as (evs & Ht & Hr).
      exists (Returned c :: evs). split; [|by apply ran_cons].
      rewrite Ht, Hc, <- app_assoc. reflexivity.
    + rewrite (bind_raised _ _ _ _ _ Hp). exists [Threw c e]. split; [done|].
      apply (ran_fail [] c cs e). apply (perform_raises c s). by rewrite Hp.
Qed.

End Logging.

(** ** The routine runs the script *)
Section Shape.

Context {E : Env}.
Implicit Types (s : state E).

(** The body of the [try] statement is the interpreter applied to [script]. *)
Lemma run_verification_script s :
  run_verification E s =
  with_ E (sync_playwright_enter E) (sync_playwright_exit E) (λ p,
    b ← launch E (chromium p) true;
    pg ← new_page E b;
    try_finally E (perform_all script) (close E b)) s.
Proof.
  unfold run_verification, with_.
  apply bind_cong; intros p s1. apply try_finally_cong; intros s2.
  apply bind_cong; intros b s3. apply bind_cong; intros [] s4.
  apply try_finally_cong; intros s5.
  cbv zeta. unfold script, perform_all.
  do 10 (apply bind_cong; intros [] ?).
  symmetry. apply bind_ret_r.
Qed.

(** *** The four exits, as equations *)

Lemma run_no_driver s w1 :
  env_start E (st_world s) = (false, w1) →
  run_verification E s =
  (Raised StartError, log E (Threw CStart StartError) (set_world E w1 s)).
Proof.
  intros H1. unfold run_verification, with_, sync_playwright_enter, api,
    mbind, M_bind. rewrite H1. reflexivity.
Qed.

Lemma run_no_browser s w1 w2 :
  env_start E (st_world s) = (true, w1) →
  env_launch E true w1 = (false, w2) →
  run_verification E s =
  (Raised LaunchError,
   leave_scope (log E (Threw (CLaunch true) LaunchError)
     (set_world E w2 (log E (Returned CStart) (set_world E w1 s))))).
Proof.
  intros H1 H2. unfold run_verification, with_, try_finally,
    sync_playwright_enter, launch, api, mbind, M_bind, mret, M_ret.
  rewrite H1. simpl. rewrite H2. reflexivity.
Qed.

Lemma run_no_page s w1 w2 w3 :
  env_start E (st_world s) = (true, w1) →
  env_launch E true w1 = (true, w2) →
  env_new_page E w2 = (false, w3) →
  run_verification E s =
  (Raised PageError,
   leave_scope (log E (Threw CNewPage PageError)
     (set_world E w3 (log E (Returned (CLaunch true))
       (set_world E w2 (log E (Returned CStart) (set_world E w1 s))))))).
Proof.
  intros H1 H2 H3. unfold run_verification, with_, try_finally,
    sync_playwright_enter, launch, new_page, api, mbind, M_bind, mret, M_ret.
  rewrite H1. simpl. rewrite H2. simpl. rewrite H3. reflexivity.
Qed.

Lemma run_guarded s w1 w2 w3 :
  env_start E (st_world s) = (true, w1) →
  env_launch E true w1 = (true, w2) →
  env_new_page E w2 = (true, w3) →
  let s3 := log E (Returned CNewPage)
      (set_world E w3 (log E (Returned (CLaunch true))
        (set_world E w2 (log E (Returned CStart) (set_world E w1 s))))) in
  run_verification E s =
  ((perform_all script s3).1, teardown (perform_all script s3).2).
Proof.
  intros H1 H2 H3 s3. rewrite run_verification_script.
  unfold with_, try_finally, sync_playwright_enter, launch, new_page, api,
    mbind, M_bind, mret, M_ret.
  rewrite H1. cbn -[perform_all]. rewrite H2. cbn -[perform_all].
  rewrite H3. cbn -[perform_all]. fold s3.
  by destruct (perform_all script s3) as [r s4].
Qed.

(** Every run has one of the four shapes. *)
Theorem run_verification_shape s :
  ∃ evs, st_trace (run_verification E s).2 = st_trace s ++ evs
         ∧ run_shape (run_verification E s).1 evs.
Proof.
  destruct (env_start E (st_world s)) as [[] w1] eqn:H1.
  2:{ rewrite (run_no_driver _ _ H1). eexists. split; [reflexivity|]. constructor. }
  destruct (env_launch E true w1) as [[] w2] eqn:H2.
  2:{ rewrite (run_no_browser _ _ _ H1 H2). eexists. split; [|constructor].
      simpl. by rewrite <- !app_assoc. }
  destruct (env_new_page E w2) as [[] w3] eqn:H3.
  2:{ rewrite (run_no_page _ _ _ _ H1 H2 H3). eexists. split; [|constructor].
      simpl. by rewrite <- !app_assoc. }
  rewrite (run_guarded _ _ _ _ H1 H2 H3). cbv zeta.
  match goal with |- context [perform_all script ?s3] =>
    destruct (perform_all_log script s3) as (evs & Ht & Hr) end.
  exists ((Returned <$> setup) ++ evs ++ [Returned CClose; Returned CStop]).
  split; [|by constructor].
  cbn -[perform_all]. rewrite Ht. cbn. by rewrite <- !app_assoc.
Qed.

End Shape.

(** ** Counting in logs *)
Section Census.

Lemma acquired_app t1 t2 : acquired (t1 ++ t2) = acquired t1 + acquired t2.
Proof. unfold acquired. by rewrite filter_app, length_app. Qed.

Lemma released_app t1 t2 : released (t1 ++ t2) = released t1 + released t2.
Proof. unfold released. by rewrite filter_app, length_app. Qed.

Lemma scope_exits_app t1 t2 :
  scope_exits (t1 ++ t2) = scope_exits t1 + scope_exits t2.
Proof. unfold scope_exits. by rewrite filter_app, length_app. Qed.

Lemma script_in_region : Forall (λ c, in_region c = true) script.
Proof. unfold script. repeat constructor. Qed.

Lemma ran_region cs r evs :
  Forall (λ c, in_region c = true) cs → ran cs r evs →
  Forall (λ ev, in_region (ev_call ev) = true) evs.
Proof.
  intros Hcs Hr. destruct Hr as [cs'|pre c rest e Hce].
  - by apply Forall_fmap.
  - apply Forall_app in Hcs as [Hd Hc]. apply Forall_cons in Hc as [Hc _].
    apply Forall_app. split; [by apply Forall_fmap | by constructor].
Qed.

(** Calls of the guarded region neither launch nor close nor leave the scope. *)
Lemma region_census evs :
  Forall (λ ev, in_region (ev_call ev) = true) evs →
  acquired evs = 0 ∧ released evs = 0 ∧ scope_exits evs = 0.
Proof.
  unfold acquired, released, scope_exits.
  intros H. induction H as [|ev evs Hev Hevs IH]; [done|].
  destruct IH as (IH1 & IH2 & IH3). rewrite !filter_cons.
  destruct ev as [c|c e]; destruct c; simpl in *; try discriminate; done.
Qed.

(** A call of the guarded region raises only failures of the flow proper. *)
Lemma region_failure c e : in_region c = true → may_raise c e → flow_failure e.
Proof. destruct c, e; simpl; try done. Qed.

Lemma ran_outcome cs r evs :
  Forall (λ c, in_region c = true) cs → ran cs r evs → listed_exit r.
Proof.
  intros Hcs Hr. destruct Hr as [cs'|pre c rest e Hce]; [done|]. simpl.
  apply Forall_app in Hcs as [_ Hc]. apply Forall_cons in Hc as [Hc _].
  by apply (region_failure c).
Qed.

(** Browsers acquired, [close()] calls and scope exits, for each shape. *)
Lemma shape_census r evs :
  run_shape r evs →
  match r with
  | Raised StartError => acquired evs = 0 ∧ released evs = 0 ∧ scope_exits evs = 0
  | Raised LaunchError => acquired evs = 0 ∧ released evs = 0 ∧ scope_exits evs = 1
  | Raised PageError => acquired evs = 1 ∧ released evs = 0 ∧ scope_exits evs = 1
  | _ => acquired evs = 1 ∧ released evs = 1 ∧ scope_exits evs = 1
  end.
Proof.
  intros Hs. destruct Hs as [| | |r' evs' Hr]; try done.
  pose proof (ran_outcome _ _ _ script_in_region Hr) as Hx.
  destruct (region_census evs' (ran_region _ _ _ script_in_region Hr))
    as (Ha & Hc & Hs).
  assert (acquired ((Returned <$> setup) ++ evs' ++ [Returned CClose; Returned CStop]) = 1
          ∧ released ((Returned <$> setup) ++ evs' ++ [Returned CClose; Returned CStop]) = 1
          ∧ scope_exits ((Returned <$> setup) ++ evs' ++ [Returned CClose; Returned CStop]) = 1)
    as Hall.
  { rewrite !acquired_app, !released_app, !scope_exits_app, Ha, Hc, Hs. done. }
  destruct r' as [[]|[]]; simpl in Hx; done.
Qed.

End Census.

(** ** The browser as a resource *)
Section Resource.

Context {E : Env}.

Lemma run_shape_fresh (w : world E) fs :
  run_shape (run w fs).1 (st_trace (run w fs).2).
Proof.
  destruct (run_verification_shape (fresh w fs)) as (evs & Ht & Hs).
  unfold run. simpl in Ht. by rewrite Ht.
Qed.

(** A run that does not end in a set-up failure went through the guarded
    region. *)
Lemma listed_exit_guarded r evs :
  run_shape r evs → listed_exit r →
  ∃ mid, ran script r mid
         ∧ evs = (Returned <$> setup) ++ mid ++ [Returned CClose; Returned CStop].
Proof. intros Hs Hx. destruct Hs as [| | |r' evs' Hr]; try done. eauto. Qed.

(** C1: on every exit the guarantee is stated for (normal completion, an
    assertion timeout, a failed element lookup, a failed navigation, and
    likewise a failed screenshot write) the run acquired exactly one browser
    and called [browser.close()] on it exactly once, after the launch and
    as the last thing but leaving the scope. *)
Theorem C1_one_browser_closed_once (w : world E) (fs : gmap string image) :
  listed_exit (run w fs).1 →
  let t := st_trace (run w fs).2 in
  acquired t = 1 ∧ released t = 1
  ∧ ∃ mid, t = Returned CStart :: Returned (CLaunch true) :: mid
                 ++ [Returned CClose; Returned CStop]
           ∧ released mid = 0.
Proof.
  intros Hx t. pose proof (run_shape_fresh w fs) as Hs. fold t in Hs.
  pose proof (shape_census _ _ Hs) as Hc.
  destruct (listed_exit_guarded _ _ Hs Hx) as (mid & Hr & Ht).
  split_and!.
  - destruct (run w fs).1 as [[]|[]]; simpl in Hx; tauto.
  - destruct (run w fs).1 as [[]|[]]; simpl in Hx; tauto.
  - exists (Returned CNewPage :: mid). split; [by rewrite Ht|].
    destruct (region_census mid (ran_region _ _ _ script_in_region Hr))
      as (_ & Hm & _).
    change (Returned CNewPage :: mid) with ([Returned CNewPage] ++ mid).
    by rewrite released_app, Hm.
Qed.

(** C10: when [new_page()] raises, the launch has already returned, the
    [finally] clause is never reached, no call of the guarded region and no
    [browser.close()] is issued, and the only thing that follows is the exit
    from the [sync_playwright] scope. *)
Theorem C10_page_failure_skips_close (w : world E) (fs : gmap string image) e :
  Threw CNewPage e ∈ st_trace (run w fs).2 →
  (run w fs).1 = Raised PageError
  ∧ st_trace (run w fs).2 =
      [Returned CStart; Returned (CLaunch true); Threw CNewPage PageError; Returned CStop]
  ∧ acquired (st_trace (run w fs).2) = 1
  ∧ released (st_trace (run w fs).2) = 0
  ∧ scope_exits (st_trace (run w fs).2) = 1.
Proof.
  intros Hin. pose proof (run_shape_fresh w fs) as Hs.
  destruct Hs as [| | |r evs Hr].
  - apply list_elem_of_singleton in Hin. discriminate.
  - repeat (apply elem_of_cons in Hin as [Hin|Hin]; [discriminate|]).
    by apply elem_of_nil in Hin.
  - done.
  - exfalso.
    pose proof (ran_region _ _ _ script_in_region Hr) as Hreg.
    simpl in Hin.
    repeat (apply elem_of_cons in Hin as [Hin|Hin]; [discriminate|]).
    apply elem_of_app in Hin as [Hin|Hin].
    + rewrite Forall_forall in Hreg. apply Hreg in Hin. discriminate.
    + repeat (apply elem_of_cons in Hin as [Hin|Hin]; [discriminate|]).
      by apply elem_of_nil in Hin.
Qed.

(** The guaranteed-release region starts after page creation: a run calls
    [browser.close()] exactly when [new_page()] returned. *)
Lemma close_iff_page_created (w : world E) fs :
  Returned CClose ∈ st_trace (run w fs).2 ↔ Returned CNewPage ∈ st_trace (run w fs).2.
Proof.
  pose proof (run_shape_fresh w fs) as Hs.
  destruct Hs as [| | |r evs Hr].
  - split; intros H; apply list_elem_of_singleton in H; discriminate.
  - split; intros H;
      repeat (apply elem_of_cons in H as [H|H]; [discriminate|]);
      by apply elem_of_nil in H.
  - split; intros H;
      repeat (apply elem_of_cons in H as [H|H]; [discriminate|]);
      by apply elem_of_nil in H.
  - split; intros _.
    + simpl. rewrite !elem_of_cons. auto.
    + rewrite !elem_of_app, !elem_of_cons. auto.
Qed.

End Resource.

Lemma C1_one_browser_closed_once_witness :
  listed_exit (run (E:=Sim.env) (Sim.healthy 2 1) ∅).1
  ∧ acquired (st_trace (run (E:=Sim.env) (Sim.healthy 2 1) ∅).2) = 1
  ∧ released (st_trace (run (E:=Sim.env) (Sim.healthy 2 1) ∅).2) = 1.
Proof.
  split; [vm_compute; exact I|].
  destruct (C1_one_browser_closed_once (E:=Sim.env) (Sim.healthy 2 1) ∅)
    as (Ha & Hc & _); [vm_compute; exact I|].
  split; [exact Ha | exact Hc].
Defined.

Lemma C10_page_failure_skips_close_witness :
  Threw CNewPage PageError ∈ st_trace (run (E:=Sim.env) Sim.no_page ∅).2
  ∧ released (st_trace (run (E:=Sim.env) Sim.no_page ∅).2) = 0.
Proof.
  assert (Threw CNewPage PageError ∈ st_trace (run (E:=Sim.env) Sim.no_page ∅).2) as Hin.
  { apply (bool_decide_unpack _). vm_compute. exact I. }
  split; [exact Hin|].
  destruct (C10_page_failure_skips_close (E:=Sim.env) Sim.no_page ∅ PageError Hin)
    as (_ & _ & _ & Hc & _).
  exact Hc.
Defined.

(** ** The order of the steps *)
Section Order.

Lemma ran_ok_inv cs evs : ran cs (Ok ()) evs → evs = Returned <$> cs.
Proof. by inversion 1. Qed.

Lemma ran_raised_inv cs e evs :
  ran cs (Raised e) evs →
  ∃ pre c rest, cs = pre ++ c :: rest ∧ may_raise c e
                ∧ evs = (Returned <$> pre) ++ [Threw c e].
Proof. inversion 1; subst. eauto 10. Qed.








(** A run that ends in a failure of the flow proper: the calls before the
    failing one returned, the rest of the script was never issued, and the
    two release calls follow. *)
Lemma shape_flow_failure e evs :
  run_shape (Raised e) evs → flow_failure e →
  ∃ pre c rest, script = pre ++ c :: rest ∧ may_raise c e
    ∧ evs = (Returned <$> (setup ++ pre))
            ++ [Threw c e; Returned CClose; Returned CStop].
Proof.
  intros Hs Hf. destruct (listed_exit_guarded _ _ Hs Hf) as (mid & Hr & ->).
  destruct (ran_raised_inv _ _ _ Hr) as (pre & c & rest & Hsc & Hce & ->).
  exists pre, c, rest. split_and!; [done..|].
  by rewrite fmap_app, <- !app_assoc.
Qed.

Lemma shape_ok_iff r evs :
  run_shape r evs → r = Ok () ↔ evs = Returned <$> complete_run.
Proof.
  intros Hs. split.
  - intros ->. destruct (listed_exit_guarded _ _ Hs I) as (mid & Hr & ->).
    apply ran_ok_inv in Hr as ->. unfold complete_run.
    by rewrite !fmap_app.
  - intros Ht. destruct r as [[]|e]; [done|]. exfalso.
    assert (Forall (λ ev, is_returned ev = true) evs) as Hall.
    { rewrite Ht. apply Forall_fmap. by apply Forall_true. }
    clear Ht. remember (Raised e) as r eqn:Hre.
    destruct Hs as [| | |r evs Hr].
    + by apply Forall_cons in Hall as [? _].
    + apply Forall_cons in Hall as [_ Hall]. by apply Forall_cons in Hall as [? _].
    + do 2 apply Forall_cons in Hall as [_ Hall]. by apply Forall_cons in Hall as [? _].
    + subst r. destruct (ran_raised_inv _ _ _ Hr) as (pre & c & rest & _ & _ & ->).
      apply Forall_app in Hall as [_ Hall]. apply Forall_app in Hall as [Hall _].
      apply Forall_app in Hall as [_ Hall]. by apply Forall_cons in Hall as [? _].
Qed.

End Order.

(** ** Failures *)
Section Failures.

Lemma threw_not_returned c e (cs : list call) : Threw c e ∉ (Returned <$> cs).
Proof. intros (c' & Hc & _)%list_elem_of_fmap. discriminate. Qed.

(** A call that raised is the run's outcome. *)
Lemma shape_threw r evs c e :
  run_shape r evs → Threw c e ∈ evs → r = Raised e ∧ may_raise c e.
Proof.
  intros Hs Hin. destruct Hs as [| | |r evs Hr].
  - by apply list_elem_of_singleton in Hin as [= -> ->].
  - repeat (apply elem_of_cons in Hin as [Hin|Hin]; [simplify_eq/=; by split|]).
    by apply elem_of_nil in Hin.
  - repeat (apply elem_of_cons in Hin as [Hin|Hin]; [simplify_eq/=; by split|]).
    by apply elem_of_nil in Hin.
  - apply elem_of_app in Hin as [Hin|Hin]; [by apply threw_not_returned in Hin|].
    apply elem_of_app in Hin as [Hin|Hin].
    2:{ repeat (apply elem_of_cons in Hin as [Hin|Hin]; [simplify_eq/=; by split|]).
        by apply elem_of_nil in Hin. }
    destruct Hr as [cs|pre c' rest e' Hce]; [by apply threw_not_returned in Hin|].
    apply elem_of_app in Hin as [Hin|Hin]; [by apply threw_not_returned in Hin|].
    by apply list_elem_of_singleton in Hin as [= -> ->].
Qed.

(** In the log of a failed run the failing call occurs once and the calls
    after it in the script do not occur. *)
Lemma failed_run_issued pre c rest e :
  script = pre ++ c :: rest →
  let t := (Returned <$> (setup ++ pre))
           ++ [Threw c e; Returned CClose; Returned CStop] in
  issued c t = 1 ∧ Forall (λ c', issued c' t = 0) rest.
Proof.
  unfold script. intros H.
  do 11 (destruct pre as [|? pre]; simplify_eq/=;
         [split; [reflexivity | repeat constructor]|]).
  by destruct pre.
Qed.

End Failures.

(** ** The flow as a whole *)
Section Flow_claims.

Context {E : Env}.


(** C3: when a call raises a navigation failure, an element-lookup failure,
    an assertion timeout or a screenshot-write failure, that failure is the
    outcome of the run; the log is the calls before it, all returned, then
    the failing call, once, then [browser.close()] and the scope exit; no
    later call of the script is issued. *)
Theorem C3_failure_aborts_and_releases (w : world E) (fs : gmap string image) c e :
  Threw c e ∈ st_trace (run w fs).2 → flow_failure e →
  let t := st_trace (run w fs).2 in
  (run w fs).1 = Raised e
  ∧ (∃ pre rest, script = pre ++ c :: rest
       ∧ t = (Returned <$> (setup ++ pre))
             ++ [Threw c e; Returned CClose; Returned CStop]
       ∧ Forall (λ c', issued c' t = 0) rest)
  ∧ issued c t = 1
  ∧ released t = 1.
Proof.
  intros Hin Hf t. pose proof (run_shape_fresh w fs) as Hs. fold t in Hs, Hin.
  destruct (shape_threw _ _ _ _ Hs Hin) as [Hr _]. rewrite Hr in Hs.
  destruct (shape_flow_failure _ _ Hs Hf) as (pre & c' & rest & Hsc & Hce & Ht).
  assert (c' = c) as ->.
  { rewrite Ht in Hin. apply elem_of_app in Hin as [Hin|Hin];
      [by apply threw_not_returned in Hin|].
    apply elem_of_cons in Hin as [Hin|Hin]; [by simplify_eq/=|].
    repeat (apply elem_of_cons in Hin as [Hin|Hin]; [discriminate|]).
    by apply elem_of_nil in Hin. }
  destruct (failed_run_issued pre c rest e Hsc) as [Hi Hrest].
  pose proof (shape_census _ _ Hs) as Hc.
  split_and!.
  - done.
  - exists pre, rest. by rewrite Ht.
  - by rewrite Ht.
  - destruct e; simpl in Hf; tauto.
Qed.

(** C6: running the module as a script ignores the argument vector and the
    process environment; the exit status is 0 exactly when every call of the
    complete sequence returned, and 1 exactly when [run_verification] raised,
    the exception reaching the top level untouched. *)
Theorem C6_exit_status (w : world E) (fs : gmap string image)
    (argv : list string) (environ : gmap string string) :
  let out := module_main E "__main__" argv environ (fresh w fs) in
  out = module_main E "__main__" [] ∅ (fresh w fs)
  ∧ out.2 = (run w fs).2
  ∧ (out.1 = 0%Z ↔ st_trace out.2 = Returned <$> complete_run)
  ∧ (out.1 = 0%Z ↔ (run w fs).1 = Ok ())
  ∧ (out.1 ≠ 0%Z ↔ ∃ e, (run w fs).1 = Raised e)
  ∧ (out.1 = 0%Z ∨ out.1 = 1%Z).
Proof.
  intros out. pose proof (run_shape_fresh w fs) as Hs.
  pose proof (shape_ok_iff _ _ Hs) as Hok.
  subst out. unfold module_main. rewrite bool_decide_eq_true_2 by done.
  fold (run w fs) in *. destruct (run w fs) as [[[]|e] s']; simpl in *.
  - split_and!; try done.
    + split; [intros _; by apply Hok | done].
    + split; [done | by intros [e [=]]].
    + by left.
  - split_and!; try done.
    + split; [done | intros Ht; by apply Hok in Ht].
    + split; [intros _; by exists e | done].
    + by right.
Qed.

End Flow_claims.

Lemma C3_failure_aborts_and_releases_witness :
  Threw (CGoto dashboard_url) (NavigationError (Some dashboard_url))
    ∈ st_trace (run (E:=Sim.env) Sim.offline ∅).2
  ∧ flow_failure (NavigationError (Some dashboard_url))
  ∧ (run (E:=Sim.env) Sim.offline ∅).1 = Raised (NavigationError (Some dashboard_url))
  ∧ released (st_trace (run (E:=Sim.env) Sim.offline ∅).2) = 1.
Proof.
  assert (Threw (CGoto dashboard_url) (NavigationError (Some dashboard_url))
            ∈ st_trace (run (E:=Sim.env) Sim.offline ∅).2) as Hin.
  { apply (bool_decide_unpack _). vm_compute. exact I. }
  destruct (C3_failure_aborts_and_releases (E:=Sim.env) Sim.offline ∅ _ _ Hin I)
    as (Hr & _ & _ & Hc).
  split; [exact Hin|]. split; [exact I|]. split; [exact Hr | exact Hc].
Defined.

(** ** Running up to a step *)
Section Reaching.

Context {E : Env}.
Implicit Types (s : state E).

Lemma perform_all_app cs1 cs2 s :
  perform_all (cs1 ++ cs2) s = (perform_all cs1;; perform_all cs2) s.
Proof.
  revert s. induction cs1 as [|c cs1 IH]; intros s; [done|].
  simpl. unfold mbind, M_bind in *.
  destruct (perform c s) as [[[]|e] s1]; [apply IH | done].
Qed.

Lemma perform_all_ok_trace cs s s' :
  perform_all cs s = (Ok (), s') → st_trace s' = st_trace s ++ (Returned <$> cs).
Proof.
  intros H. destruct (perform_all_log cs s) as (evs & Ht & Hr).
  rewrite H in Ht, Hr. simpl in *. apply ran_ok_inv in Hr. by rewrite Ht, Hr.
Qed.

(** The set-up returns only through its three successful calls. *)
Lemma setup_ok_inv s s3 :
  perform_all setup s = (Ok (), s3) →
  ∃ w1 w2 w3,
    env_start E (st_world s) = (true, w1)
    ∧ env_launch E true w1 = (true, w2)
    ∧ env_new_page E w2 = (true, w3)
    ∧ s3 = log E (Returned CNewPage)
             (set_world E w3 (log E (Returned (CLaunch true))
               (set_world E w2 (log E (Returned CStart) (set_world E w1 s))))).
Proof.
  unfold setup, perform_all, perform, sync_playwright_enter, launch, new_page,
    api, mbind, M_bind, mret, M_ret.
  destruct (env_start E (st_world s)) as [[] w1] eqn:H1; simpl; [|discriminate].
  destruct (env_launch E true w1) as [[] w2] eqn:H2; simpl; [|discriminate].
  destruct (env_new_page E w2) as [[] w3] eqn:H3; simpl; [|discriminate].
  intros [= <-]. by exists w1, w2, w3.
Qed.

(** When the first [k] calls of the script have returned, the run is the rest
    of the script from there, followed by the release calls. *)
Lemma reach_run k s sk :
  reach k s = (Ok (), sk) →
  run_verification E s =
  ((perform_all (drop k script) sk).1, teardown (perform_all (drop k script) sk).2).
Proof.
  unfold reach. rewrite perform_all_app. intros H.
  apply bind_ok_inv in H as ([] & s3 & Hsetup & Hk).
  destruct (setup_ok_inv _ _ Hsetup) as (w1 & w2 & w3 & H1 & H2 & H3 & Hs3).
  rewrite (run_guarded _ _ _ _ H1 H2 H3). cbv zeta. rewrite <- Hs3.
  assert (perform_all script s3 = perform_all (drop k script) sk) as ->; [|done].
  rewrite <- (take_drop k script) at 1. rewrite perform_all_app.
  unfold mbind, M_bind. by rewrite Hk.
Qed.

Lemma reach_trace k s sk :
  reach k s = (Ok (), sk) →
  st_trace sk = st_trace s ++ (Returned <$> (setup ++ take k script)).
Proof. apply perform_all_ok_trace. Qed.

(** *** What a click does, by number of matches *)

Lemma click_none l s :
  resolve l (dom E (st_world s)) = [] →
  click E l s = (Raised (ElementNotFound l),
                 log E (Threw (CClick l) (ElementNotFound l)) s).
Proof. intros H. unfold click. by rewrite H. Qed.

Lemma click_one l s c :
  resolve l (dom E (st_world s)) = [c] →
  click E l s = (Ok (), log E (Returned (CClick l))
                    (hit E c (set_world E (env_activate E c (st_world s)) s))).
Proof. intros H. unfold click. by rewrite H. Qed.

Lemma click_many l s :
  2 ≤ length (resolve l (dom E (st_world s))) →
  click E l s =
  (Raised (StrictModeViolation l (length (resolve l (dom E (st_world s))))),
   log E (Threw (CClick l)
            (StrictModeViolation l (length (resolve l (dom E (st_world s)))))) s).
Proof.
  intros H. unfold click.
  destruct (resolve l (dom E (st_world s))) as [|c [|c' cs]]; simpl in H;
    [lia | lia | done].
Qed.

(** [.first] never finds more than one control, and finds one exactly when
    the locator it narrows finds any. *)
Lemma resolve_first l page_dom c rest :
  resolve l page_dom = c :: rest → resolve (First l) page_dom = [c].
Proof. intros H. simpl. by rewrite H. Qed.

Lemma resolve_first_nil l page_dom :
  resolve l page_dom = [] → resolve (First l) page_dom = [].
Proof. intros H. simpl. by rewrite H. Qed.

(** *** Clicks dispatched *)

Lemma perform_hits c s :
  st_hits s `prefix_of` st_hits (perform c s).2
  ∧ ((∀ l, c ≠ CClick l) → st_hits (perform c s).2 = st_hits s).
Proof.
  destruct c; simpl;
    unfold sync_playwright_enter, launch, new_page, goto, go_back, close,
      sync_playwright_exit, screenshot, click, to_be_visible, api, api_total,
      mbind, M_bind, mret, M_ret; simpl.
  - by destruct (env_start E (st_world s)) as [[] w].
  - by destruct (env_launch E headless (st_world s)) as [[] w].
  - by destruct (env_new_page E (st_world s)) as [[] w].
  - by destruct (env_goto E url (st_world s)) as [[] w].
  - by destruct (env_screenshot E path (st_world s)) as [[img|] w].
  - split; [|intros H; by destruct (H l)].
    destruct (resolve l (dom E (st_world s))) as [|c [|c' cs]]; simpl;
      [done | by apply prefix_app_r | done].
  - by destruct (poll E l 0 (st_world s)) as [[[] n] w].
  - by destruct (env_go_back E (st_world s)) as [[] w].
  - done.
  - done.
Qed.

Lemma perform_all_hits cs s :
  st_hits s `prefix_of` st_hits (perform_all cs s).2
  ∧ (Forall (λ c, ∀ l, c ≠ CClick l) cs → st_hits (perform_all cs s).2 = st_hits s).
Proof.
  revert s. induction cs as [|c cs IH]; intros s; [done|].
  simpl. unfold mbind, M_bind.
  destruct (perform_hits c s) as [Hp Hn].
  destruct (perform c s) as [[[]|e] s1]; simpl in *.
  - destruct (IH s1) as [Hp' Hn']. split; [by etrans|].
    intros [Hc Hcs]%Forall_cons. by rewrite Hn', Hn.
  - split; [done|]. intros [Hc _]%Forall_cons. by apply Hn.
Qed.

End Reaching.

(** ** The two button lookups *)
Section Lookups.

Context {E : Env}.

Lemma teardown_trace (s : state E) :
  st_trace (teardown s) = st_trace s ++ [Returned CClose; Returned CStop].
Proof. simpl. by rewrite <- app_assoc. Qed.

Lemma teardown_hits (s : state E) : st_hits (teardown s) = st_hits s.
Proof. done. Qed.

(** Before the first click nothing has been clicked. *)
Lemma reach_no_hits k (w : world E) fs sk :
  k ≤ 2 → reach k (fresh w fs) = (Ok (), sk) → st_hits sk = [].
Proof.
  intros Hk H. destruct (perform_all_hits (setup ++ take k script) (fresh w fs))
    as [_ Hn]. unfold reach in H. rewrite H in Hn. apply Hn.
  destruct k as [|[|[|k]]]; [| | |lia]; repeat constructor; done.
Qed.

(** The Edit locator is narrowed by [.first]: it never matches two controls. *)
Lemma edit_locator_unambiguous page_dom : length (resolve edit_locator page_dom) ≤ 1.
Proof. unfold edit_locator. simpl. rewrite length_take. lia. Qed.

(** C7: when the script gets to the Edit click, the click goes to the first
    control of the page, in document order, whose role is button and whose
    accessible name is Edit, and to no other; the click returns exactly when
    the page has such a control. *)
Theorem C7_clicks_first_edit_button (w : world E) (fs : gmap string image) s2 :
  reach 2 (fresh w fs) = (Ok (), s2) →
  let found := resolve (GetByRole "button" "Edit") (dom E (st_world s2)) in
  (Returned (CClick edit_locator) ∈ st_trace (run w fs).2 ↔ found ≠ [])
  ∧ ∀ c rest, found = c :: rest →
      click E edit_locator s2 =
        (Ok (), log E (Returned (CClick edit_locator))
                  (hit E c (set_world E (env_activate E c (st_world s2)) s2)))
      ∧ head (st_hits (run w fs).2) = Some c.
Proof.
  intros Hreach found.
  pose proof (reach_run _ _ _ Hreach) as Hrun.
  pose proof (reach_trace _ _ _ Hreach) as Ht2.
  pose proof (reach_no_hits 2 w fs s2 (le_n 2) Hreach) as Hh2.
  unfold run. rewrite Hrun. clear Hrun.
  change (drop 2 script) with (CClick edit_locator :: drop 3 script).
  cbn [perform_all perform]. unfold mbind, M_bind.
  destruct found as [|c rest] eqn:Hfound; subst found.
  - rewrite (click_none edit_locator s2 (resolve_first_nil _ _ Hfound)). simpl.
    split; [|done]. rewrite Ht2. simpl. split; [|done].
    intros Hin. exfalso. by apply (bool_decide_pack _) in Hin.
  - pose proof (click_one edit_locator s2 c (resolve_first _ _ _ _ Hfound)) as Hclick.
    rewrite Hclick. cbn [fst snd]. split.
    + split; [done|]. intros _. rewrite teardown_trace.
      match goal with |- context [perform_all ?cs ?s] =>
        destruct (perform_all_log cs s) as (evs & -> & _) end.
      simpl. rewrite !elem_of_app, list_elem_of_singleton. auto.
    + intros c' rest' [= <- <-]. split; [done|].
      rewrite teardown_hits.
      match goal with |- context [perform_all ?cs ?s] =>
        destruct (perform_all_hits cs s) as [[tl ->] _] end.
      simpl. by rewrite Hh2.
Qed.

(** C8: when the script gets to the Edit click and the page has no control
    with role button and accessible name Edit, the click raises
    element-not-found, which is the outcome of the run; the log ends with the
    failed click, [browser.close()] and the scope exit; none of the later
    calls of the script is issued and nothing has been clicked. *)
Theorem C8_no_edit_button (w : world E) (fs : gmap string image) s2 :
  reach 2 (fresh w fs) = (Ok (), s2) →
  resolve (GetByRole "button" "Edit") (dom E (st_world s2)) = [] →
  let t := st_trace (run w fs).2 in
  (run w fs).1 = Raised (ElementNotFound edit_locator)
  ∧ t = (Returned <$> (setup ++ take 2 script))
        ++ [Threw (CClick edit_locator) (ElementNotFound edit_locator);
            Returned CClose; Returned CStop]
  ∧ Forall (λ c, issued c t = 0) (drop 3 script)
  ∧ released t = 1
  ∧ st_hits (run w fs).2 = [].
Proof.
  intros Hreach Hnone.
  pose proof (reach_run _ _ _ Hreach) as Hrun.
  pose proof (reach_trace _ _ _ Hreach) as Ht2.
  pose proof (reach_no_hits 2 w fs s2 (le_n 2) Hreach) as Hh2.
  unfold run. rewrite Hrun. clear Hrun.
  change (drop 2 script) with (CClick edit_locator :: drop 3 script).
  cbn [perform_all perform]. unfold mbind, M_bind.
  rewrite (click_none edit_locator s2 (resolve_first_nil _ _ Hnone)). cbn [fst snd].
  rewrite teardown_trace, teardown_hits. simpl. rewrite Ht2, Hh2. simpl.
  split_and!; try done. repeat constructor.
Qed.

(** C9: the Update Expense locator is not narrowed.  When the script gets to
    that click and the page has two or more controls with role button and
    accessible name Update Expense, the click is refused with a strict-mode
    ambiguity failure carrying the number of matches; that failure is the
    outcome of the run, no control receives the click, none of the later
    calls of the script is issued, and the release calls follow.  The Edit
    locator can never be refused that way. *)
Theorem C9_ambiguous_update_button (w : world E) (fs : gmap string image) s5 :
  reach 5 (fresh w fs) = (Ok (), s5) →
  let found := resolve update_locator (dom E (st_world s5)) in
  2 ≤ length found →
  let t := st_trace (run w fs).2 in
  (run w fs).1 = Raised (StrictModeViolation update_locator (length found))
  ∧ t = (Returned <$> (setup ++ take 5 script))
        ++ [Threw (CClick update_locator)
              (StrictModeViolation update_locator (length found));
            Returned CClose; Returned CStop]
  ∧ Forall (λ c, issued c t = 0) (drop 6 script)
  ∧ st_hits (run w fs).2 = st_hits s5
  ∧ (∀ page_dom, length (resolve edit_locator page_dom) ≤ 1).
Proof.
  intros Hreach found Hmany.
  pose proof (reach_run _ _ _ Hreach) as Hrun.
  pose proof (reach_trace _ _ _ Hreach) as Ht5.
  unfold run. rewrite Hrun. clear Hrun.
  change (drop 5 script) with (CClick update_locator :: drop 6 script).
  cbn [perform_all perform]. unfold mbind, M_bind.
  rewrite (click_many update_locator s5 Hmany). cbn [fst snd]. fold found.
  rewrite teardown_trace, teardown_hits. simpl. rewrite Ht5. simpl.
  split_and!; try done; [repeat constructor | apply edit_locator_unambiguous].
Qed.

End Lookups.

Lemma C7_clicks_first_edit_button_witness :
  reach 2 (fresh (E:=Sim.env) (Sim.healthy 2 1) ∅)
    = (Ok (), (reach 2 (fresh (E:=Sim.env) (Sim.healthy 2 1) ∅)).2)
  ∧ head (st_hits (run (E:=Sim.env) (Sim.healthy 2 1) ∅).2) = Some (Sim.edit_button 0).
Proof.
  assert (reach 2 (fresh (E:=Sim.env) (Sim.healthy 2 1) ∅)
          = (Ok (), (reach 2 (fresh (E:=Sim.env) (Sim.healthy 2 1) ∅)).2)) as H.
  { vm_compute. reflexivity. }
  split; [exact H|].
  destruct (C7_clicks_first_edit_button (E:=Sim.env) _ _ _ H) as [_ Hc].
  apply (Hc (Sim.edit_button 0) [Sim.edit_button 1]).
  vm_compute. reflexivity.
Defined.

Lemma C8_no_edit_button_witness :
  reach 2 (fresh (E:=Sim.env) (Sim.healthy 0 1) ∅)
    = (Ok (), (reach 2 (fresh (E:=Sim.env) (Sim.healthy 0 1) ∅)).2)
  ∧ (run (E:=Sim.env) (Sim.healthy 0 1) ∅).1 = Raised (ElementNotFound edit_locator)
  ∧ released (st_trace (run (E:=Sim.env) (Sim.healthy 0 1) ∅).2) = 1.
Proof.
  assert (reach 2 (fresh (E:=Sim.env) (Sim.healthy 0 1) ∅)
          = (Ok (), (reach 2 (fresh (E:=Sim.env) (Sim.healthy 0 1) ∅)).2)) as H.
  { vm_compute. reflexivity. }
  split; [exact H|].
  destruct (C8_no_edit_button (E:=Sim.env) _ _ _ H) as (Hr & _ & _ & Hc & _).
  { vm_compute. reflexivity. }
  split; [exact Hr | exact Hc].
Defined.

Lemma C9_ambiguous_update_button_witness :
  reach 5 (fresh (E:=Sim.env) (Sim.healthy 1 2) ∅)
    = (Ok (), (reach 5 (fresh (E:=Sim.env) (Sim.healthy 1 2) ∅)).2)
  ∧ (run (E:=Sim.env) (Sim.healthy 1 2) ∅).1
    = Raised (StrictModeViolation update_locator 2).
Proof.
  assert (reach 5 (fresh (E:=Sim.env) (Sim.healthy 1 2) ∅)
          = (Ok (), (reach 5 (fresh (E:=Sim.env) (Sim.healthy 1 2) ∅)).2)) as H.
  { vm_compute. reflexivity. }
  split; [exact H|].
  destruct (C9_ambiguous_update_button (E:=Sim.env) _ _ _ H) as (Hr & _).
  { vm_compute. lia. }
  exact Hr.
Defined.

(** ** The disk *)
Section Disk.

Context {E : Env}.
Implicit Types (s : state E).

Lemma put_all_app ws1 ws2 fs : put_all (ws1 ++ ws2) fs = put_all ws2 (put_all ws1 fs).
Proof. unfold put_all. by rewrite foldl_app. Qed.

Lemma written_app t1 t2 : written (t1 ++ t2) = written t1 ++ written t2.
Proof. unfold written. by rewrite omap_app. Qed.

(** A call never reads the disk, and writes at most the file of a
    screenshot that returned. *)
Lemma perform_writes c s :
  ∃ ws, (∀ fs0, perform c (set_fs fs0 s)
                = ((perform c s).1, set_fs (put_all ws fs0) (perform c s).2))
        ∧ written [outcome_event c (perform c s).1] = ws.*1.
Proof.
  destruct c; simpl;
    unfold sync_playwright_enter, launch, new_page, goto, go_back, close,
      sync_playwright_exit, screenshot, click, to_be_visible, api, api_total,
      mbind, M_bind, mret, M_ret; simpl.
  - destruct (env_start E (st_world s)) as [[] w]; by exists [].
  - destruct (env_launch E headless (st_world s)) as [[] w]; by exists [].
  - destruct (env_new_page E (st_world s)) as [[] w]; by exists [].
  - destruct (env_goto E url (st_world s)) as [[] w]; by exists [].
  - destruct (env_screenshot E path (st_world s)) as [[img|] w];
      [by exists [(path, img)] | by exists []].
  - destruct (resolve l (dom E (st_world s))) as [|c [|c' cs]]; by exists [].
  - destruct (poll E l 0 (st_world s)) as [[[] n] w]; by exists [].
  - destruct (env_go_back E (st_world s)) as [[] w]; by exists [].
  - by exists [].
  - by exists [].
Qed.

Lemma perform_all_writes cs s :
  ∃ ws, (∀ fs0, perform_all cs (set_fs fs0 s)
                = ((perform_all cs s).1, set_fs (put_all ws fs0) (perform_all cs s).2))
        ∧ written (st_trace (perform_all cs s).2) = written (st_trace s) ++ ws.*1.
Proof.
  revert s. induction cs as [|c cs IH]; intros s.
  - exists []. split; [done|]. simpl. by rewrite app_nil_r.
  - destruct (perform_writes c s) as (ws1 & Hfs1 & Hw1).
    pose proof (perform_log c s) as Hlog.
    simpl. unfold mbind, M_bind.
    destruct (perform c s) as [[[]|e] s1] eqn:Hp; cbn [fst snd outcome_event] in *.
    + destruct (IH s1) as (ws2 & Hfs2 & Hw2). exists (ws1 ++ ws2). split.
      * intros fs0. rewrite Hfs1, Hfs2. by rewrite put_all_app.
      * rewrite Hw2, Hlog, written_app, Hw1, fmap_app. by rewrite app_assoc.
    + exists ws1. split.
      * intros fs0. by rewrite Hfs1.
      * by rewrite Hlog, written_app, Hw1.
Qed.

End Disk.

Section Screenshots.

Context {E : Env}.

(** A run never reads the disk: over another disk it takes the same course
    and makes the same writes. *)
Lemma run_writes (w : world E) :
  ∃ ws, (∀ fs0, run w fs0 = ((run w ∅).1, set_fs (put_all ws fs0) (run w ∅).2))
        ∧ written (st_trace (run w ∅).2) = ws.*1.
Proof.
  unfold run.
  destruct (env_start E w) as [[] w1] eqn:H1.
  2:{ exists []. split; [|by rewrite (run_no_driver (fresh w ∅) w1 H1)].
      intros fs0. by rewrite (run_no_driver (fresh w fs0) w1 H1),
        (run_no_driver (fresh w ∅) w1 H1). }
  destruct (env_launch E true w1) as [[] w2] eqn:H2.
  2:{ exists []. split; [|by rewrite (run_no_browser (fresh w ∅) w1 w2 H1 H2)].
      intros fs0. by rewrite (run_no_browser (fresh w fs0) w1 w2 H1 H2),
        (run_no_browser (fresh w ∅) w1 w2 H1 H2). }
  destruct (env_new_page E w2) as [[] w3] eqn:H3.
  2:{ exists []. split; [|by rewrite (run_no_page (fresh w ∅) w1 w2 w3 H1 H2 H3)].
      intros fs0. by rewrite (run_no_page (fresh w fs0) w1 w2 w3 H1 H2 H3),
        (run_no_page (fresh w ∅) w1 w2 w3 H1 H2 H3). }
  pose proof (λ fs0, run_guarded (fresh w fs0) w1 w2 w3 H1 H2 H3) as Hrun.
  cbv zeta in Hrun.
  set (s3 := log E (Returned CNewPage)
      (set_world E w3 (log E (Returned (CLaunch true))
        (set_world E w2 (log E (Returned CStart) (set_world E w1 (fresh w ∅))))))).
  destruct (perform_all_writes script s3) as (ws & Hfs & Hw).
  exists ws. split.
  - intros fs0. rewrite !Hrun. fold s3.
    change (log E (Returned CNewPage) _) with (set_fs fs0 s3).
    by rewrite Hfs.
  - rewrite Hrun. fold s3. cbn [fst snd]. rewrite teardown_trace, written_app, Hw.
    simpl. by rewrite app_nil_r.
Qed.

(** C5: a complete run writes four files, in this order: the dashboard, the
    edit view, the no-changes alert and the discard alert, each at its fixed
    path under the one screenshot directory.  Whatever the disk held before,
    each of the four paths ends up holding the capture written there, and
    every other path keeps what it had. *)
Theorem C5_four_screenshots (w : world E) (fs : gmap string image) :
  (run w fs).1 = Ok () →
  written (st_trace (run w fs).2) = shot_paths
  ∧ Forall (λ p, String.prefix shots_dir p = true) shot_paths
  ∧ (∃ i1 i2 i3 i4, ∀ fs0,
       (run w fs0).1 = Ok ()
       ∧ st_fs (run w fs0).2 =
           <[shots_dir +:+ "discard-changes-alert.png" := i4]>
             (<[shots_dir +:+ "no-changes-alert.png" := i3]>
               (<[shots_dir +:+ "edit-expense-page.png" := i2]>
                 (<[shots_dir +:+ "dashboard-page.png" := i1]> fs0))))
  ∧ (∀ p, p ∉ shot_paths → st_fs (run w fs).2 !! p = fs !! p).
Proof.
  intros Hok. destruct (run_writes w) as (ws & Hfs & Hw).
  assert ((run w ∅).1 = Ok ()) as Hok0.
  { rewrite (Hfs fs) in Hok. exact Hok. }
  pose proof (run_shape_fresh w ∅) as Hs.
  apply (shape_ok_iff _ _ Hs) in Hok0 as Ht.
  rewrite Ht in Hw. change (written (Returned <$> complete_run)) with shot_paths in Hw.
  destruct ws as [|[p1 i1] [|[p2 i2] [|[p3 i3] [|[p4 i4] [|? ?]]]]]; try discriminate.
  injection Hw as <- <- <- <-.
  split_and!.
  - rewrite (Hfs fs). simpl. by rewrite Ht.
  - repeat constructor.
  - exists i1, i2, i3, i4. intros fs0. rewrite (Hfs fs0). by rewrite Hok0.
  - intros p Hp. rewrite (Hfs fs). simpl.
    unfold shot_paths in Hp. rewrite !elem_of_cons, elem_of_nil in Hp.
    rewrite !lookup_insert_ne; [done|naive_solver..].
Qed.

End Screenshots.

Lemma C5_four_screenshots_witness :
  (run (E:=Sim.env) (Sim.healthy 2 1) ∅).1 = Ok ()
  ∧ written (st_trace (run (E:=Sim.env) (Sim.healthy 2 1) ∅).2) = shot_paths.
Proof.
  assert ((run (E:=Sim.env) (Sim.healthy 2 1) ∅).1 = Ok ()) as H.
  { vm_compute. reflexivity. }
  split; [exact H|].
  destruct (C5_four_screenshots (E:=Sim.env) _ _ H) as (Hw & _).
  exact Hw.
Defined.

(** ** The polling wait *)
Section Polling.

Context {E : Env}.

Lemma after_sleeps_shift k (w : world E) :
  after_sleeps k (env_sleep E (poll_interval E) w)
  = after_sleeps (S k) w.
Proof. unfold after_sleeps. by rewrite Nat.iter_succ_r. Qed.

(** The course of one wait that starts [elapsed] ms into its window: it makes
    [k] sleeps and [k + 1] checks, every check but the last fails and is
    made inside the window, and the last check either succeeds or is made
    with the window used up. *)
Lemma poll_course (l : locator) (elapsed : nat) (w : world E) :
  ∃ k, (poll E l elapsed w).1.2 = S k
       ∧ (poll E l elapsed w).2 = after_sleeps k w
       ∧ (∀ j, j < k → visible E l (after_sleeps j w) = false
                        ∧ elapsed + j * poll_interval E < expect_timeout E)
       ∧ (poll E l elapsed w).1.1 = visible E l (after_sleeps k w)
       ∧ ((poll E l elapsed w).1.1 = false →
            expect_timeout E ≤ elapsed + k * poll_interval E).
Proof.
  funelim (poll E l elapsed w).
  - exists 0. simpl. split_and!; try done. intros j Hj. lia.
  - exists 0. simpl. split_and!; try done; [|lia].
    intros j Hj. lia.
  - destruct H as (k & Hn & Hw & Hbefore & Hlast & Hout).
    exists (S k).
    destruct (poll E l (elapsed + poll_interval E)
                (env_sleep E (poll_interval E) w)) as [[ok n] w'].
    cbn [fst snd] in *. split_and!.
    + by rewrite Hn.
    + by rewrite Hw, after_sleeps_shift.
    + intros [|j] Hj.
      * split; [done | lia].
      * destruct (Hbefore j ltac:(lia)) as [Hv Ht].
        rewrite <- after_sleeps_shift. split; [done | lia].
    + by rewrite <- after_sleeps_shift.
    + intros Hf. specialize (Hout Hf). lia.
Qed.

(** C4: a visibility assertion is a bounded polling wait.  It checks,
    sleeps one interval and checks again; it stops at the first check that
    finds the text visible, or at the first check made with the wait window
    used up.  It makes at most [timeout / interval + 2] checks and sleeps less
    than [timeout + interval] ms in all, so it always ends: with success, or
    with a timeout failure that names the awaited locator and the window.
    The script makes three such assertions, for Edit Expense, No Changes and
    Discard changes?. *)
Theorem C4_visibility_wait_bounded (l : locator) (s : state E) :
  let T := expect_timeout E in
  let I := poll_interval E in
  let out := to_be_visible E (expect l) s in
  (∃ k,
     (poll E l 0 (st_world s)).1.2 = S k
     ∧ S k ≤ T / I + 2
     ∧ k * I < T + I
     ∧ st_world out.2 = after_sleeps k (st_world s)
     ∧ (∀ j, j < k → visible E l (after_sleeps j (st_world s)) = false)
     ∧ ((out.1 = Ok ()
         ∧ visible E l (after_sleeps k (st_world s)) = true
         ∧ st_trace out.2 = st_trace s ++ [Returned (CExpectVisible l)])
        ∨ (out.1 = Raised (AssertionTimeout l T)
           ∧ visible E l (after_sleeps k (st_world s)) = false
           ∧ T ≤ k * I
           ∧ st_trace out.2
             = st_trace s ++ [Threw (CExpectVisible l) (AssertionTimeout l T)])))
  ∧ awaited script
    = [GetByText "Edit Expense"; GetByText "No Changes"; GetByText "Discard changes?"]
  ∧ (∀ l', perform (E:=E) (CExpectVisible l') = to_be_visible E (expect l')).
Proof.
  intros T I out. split; [|done].
  destruct (poll_course l 0 (st_world s)) as (k & Hn & Hw & Hbefore & Hlast & Hout).
  pose proof (poll_interval_pos E) as Hpos. fold I in Hpos, Hbefore, Hout.
  fold T in Hbefore, Hout.
  exists k. subst out. unfold to_be_visible, expect.
  destruct (poll E l 0 (st_world s)) as [[ok n] w'].
  cbn [fst snd] in *. subst w'. split_and!.
  - done.
  - destruct k as [|k]; [lia|].
    destruct (Hbefore k ltac:(lia)) as [_ Hk].
    assert (k ≤ T / I); [|lia].
    apply Nat.div_le_lower_bound; lia.
  - destruct k as [|k]; [lia|].
    destruct (Hbefore k ltac:(lia)) as [_ Hk]. lia.
  - by destruct ok.
  - intros j Hj. by destruct (Hbefore j Hj).
  - destruct ok; [left | right]; simpl; split_and!; try done.
    specialize (Hout eq_refl). lia.
Qed.

End Polling.

(** ** Concrete runs on the simulated dashboard *)
Section Concrete.

Example healthy_run_completes :
  let out := run (E:=Sim.env) (Sim.healthy 2 1) ∅ in
  out.1 = Ok ()
  ∧ st_trace out.2 = Returned <$> complete_run
  ∧ st_hits out.2 = [Sim.edit_button 0; Sim.update_button 0]
  ∧ (module_main Sim.env "__main__" [] ∅ (fresh (E:=Sim.env) (Sim.healthy 2 1) ∅)).1 = 0%Z.
Proof. vm_compute. done. Qed.

Example sluggish_run_times_out :
  let out := run (E:=Sim.env) Sim.sluggish ∅ in
  out.1 = Raised (AssertionTimeout (GetByText "Edit Expense") 5000)
  ∧ written (st_trace out.2) = [shots_dir +:+ "dashboard-page.png"]
  ∧ released (st_trace out.2) = 1
  ∧ (module_main Sim.env "__main__" [] ∅ (fresh (E:=Sim.env) Sim.sluggish ∅)).1 = 1%Z.
Proof. vm_compute. done. Qed.

Example full_disk_run_stops_at_third_shot :
  let out := run (E:=Sim.env) Sim.full_disk ∅ in
  out.1 = Raised (ScreenshotWriteError (shots_dir +:+ "no-changes-alert.png"))
  ∧ written (st_trace out.2) = take 2 shot_paths
  ∧ released (st_trace out.2) = 1.
Proof. vm_compute. done. Qed.

Example unguarded_run_misses_discard_alert :
  (run (E:=Sim.env) Sim.unguarded ∅).1
  = Raised (AssertionTimeout (GetByText "Discard changes?") 5000).
Proof. vm_compute. done. Qed.

(** The set-up exits: a run whose launch fails acquires no browser, and a
    run whose driver does not start never enters the scope. *)
Example no_browser_run_acquires_none :
  let out := run (E:=Sim.env) Sim.no_browser ∅ in
  out.1 = Raised LaunchError
  ∧ acquired (st_trace out.2) = 0 ∧ released (st_trace out.2) = 0
  ∧ scope_exits (st_trace out.2) = 1.
Proof. vm_compute. done. Qed.

Example no_driver_run_never_enters :
  let out := run (E:=Sim.env) Sim.no_driver ∅ in
  out.1 = Raised StartError ∧ st_trace out.2 = [Threw CStart StartError].
Proof. vm_compute. done. Qed.

(** Text that shows after 250 ms is found by the fourth check; text that
    never shows costs 51 checks, the last one 5000 ms into the window. *)
Example poll_finds_late_text :
  (poll Sim.env (GetByText "Edit Expense") 0 (Sim.show Sim.EditView (Sim.healthy 1 1))).1
  = (true, 4).
Proof. vm_compute. done. Qed.

Example poll_gives_up :
  (poll Sim.env (GetByText "Edit Expense") 0 (Sim.show Sim.EditView Sim.sluggish)).1
  = (false, 51).
Proof. vm_compute. done. Qed.

End Concrete.

(** * Further properties of the routine *)

(** ** The two scopes on every exit *)
Section Scopes.

Context {E : Env}.

(** X1: whatever happens, a run launches at most one browser, calls
    [browser.close()] at most once and never without a launch that returned,
    and calls it exactly when [new_page()] returned. *)
Theorem browser_never_leaked_twice (w : world E) (fs : gmap string image) :
  let t := st_trace (run w fs).2 in
  acquired t ≤ 1
  ∧ released t ≤ acquired t
  ∧ (released t = 1 ↔ Returned CNewPage ∈ t)
  ∧ (acquired t = 1 ↔ Returned (CLaunch true) ∈ t).
Proof.
  intros t. pose proof (run_shape_fresh w fs) as Hs. fold t in Hs.
  pose proof (shape_census _ _ Hs) as Hc.
  destruct Hs as [| | |r evs Hr].
  - destruct Hc as (-> & -> & _). split_and!; [lia | lia | |];
      (split; [lia|]); intros H; apply list_elem_of_singleton in H; discriminate.
  - destruct Hc as (-> & -> & _). split_and!; [lia | lia | |];
      (split; [lia|]); intros H;
      repeat (apply elem_of_cons in H as [H|H]; [discriminate|]);
      by apply elem_of_nil in H.
  - destruct Hc as (-> & -> & _). split_and!; [lia | lia | |].
    + split; [lia|]. intros H.
      repeat (apply elem_of_cons in H as [H|H]; [discriminate|]).
      by apply elem_of_nil in H.
    + split; [|done]. intros _. rewrite !elem_of_cons. auto.
  - assert (acquired ((Returned <$> setup) ++ evs ++ [Returned CClose; Returned CStop]) = 1
            ∧ released ((Returned <$> setup) ++ evs ++ [Returned CClose; Returned CStop]) = 1)
      as [Ha Hrel].
    { pose proof (ran_outcome _ _ _ script_in_region Hr) as Hx.
      destruct r as [[]|[]]; simpl in Hx; tauto. }
    rewrite Ha, Hrel. split_and!; [lia | lia | |];
      (split; [|done]); intros _; simpl; rewrite !elem_of_cons; auto.
Qed.

(** X2: when the launch raises, that failure is the outcome of the run; no
    browser was acquired, no page is asked for, no call of the script and no
    [browser.close()] is issued, and the [sync_playwright] scope is left
    once. *)
Theorem launch_failure_only_leaves_scope (w : world E) (fs : gmap string image) h e :
  Threw (CLaunch h) e ∈ st_trace (run w fs).2 →
  (run w fs).1 = Raised LaunchError
  ∧ st_trace (run w fs).2
    = [Returned CStart; Threw (CLaunch true) LaunchError; Returned CStop]
  ∧ acquired (st_trace (run w fs).2) = 0
  ∧ released (st_trace (run w fs).2) = 0
  ∧ st_fs (run w fs).2 = fs.
Proof.
  intros Hin. pose proof (run_shape_fresh w fs) as Hs.
  assert (st_fs (run w fs).2 = fs
          ∨ Returned CNewPage ∈ st_trace (run w fs).2) as Hfs.
  { unfold run. destruct (env_start E w) as [[] w1] eqn:H1.
    2:{ left. by rewrite (run_no_driver (fresh w fs) w1 H1). }
    destruct (env_launch E true w1) as [[] w2] eqn:H2.
    2:{ left. by rewrite (run_no_browser (fresh w fs) w1 w2 H1 H2). }
    destruct (env_new_page E w2) as [[] w3] eqn:H3.
    2:{ left. by rewrite (run_no_page (fresh w fs) w1 w2 w3 H1 H2 H3). }
    right. apply close_iff_page_created. fold (run w fs).
    pose proof (run_guarded (fresh w fs) w1 w2 w3 H1 H2 H3) as Hrun.
    cbv zeta in Hrun. unfold run. rewrite Hrun. cbn [fst snd].
    rewrite teardown_trace, !elem_of_app, !elem_of_cons. auto. }
  destruct Hs as [| | |r evs Hr].
  - apply list_elem_of_singleton in Hin. discriminate.
  - destruct Hfs as [Hfs|Hfs]; [done|].
    repeat (apply elem_of_cons in Hfs as [Hfs|Hfs]; [discriminate|]).
    by apply elem_of_nil in Hfs.
  - repeat (apply elem_of_cons in Hin as [Hin|Hin]; [discriminate|]).
    by apply elem_of_nil in Hin.
  - exfalso.
    pose proof (ran_region _ _ _ script_in_region Hr) as Hreg.
    simpl in Hin.
    repeat (apply elem_of_cons in Hin as [Hin|Hin]; [discriminate|]).
    apply elem_of_app in Hin as [Hin|Hin].
    + rewrite Forall_forall in Hreg. apply Hreg in Hin. discriminate.
    + repeat (apply elem_of_cons in Hin as [Hin|Hin]; [discriminate|]).
      by apply elem_of_nil in Hin.
Qed.

(** X3: the [with] block is left exactly when it was entered.  If the driver
    started, the scope exit is logged once and is the last entry of the log,
    on every exit of the body; if the driver did not start, nothing else is
    called at all. *)
Theorem scope_left_iff_entered (w : world E) (fs : gmap string image) :
  let t := st_trace (run w fs).2 in
  (Returned CStart ∈ t ↔ last t = Some (Returned CStop))
  ∧ (Returned CStart ∈ t ↔ scope_exits t = 1)
  ∧ (Returned CStart ∉ t → t = [Threw CStart StartError])
  ∧ issued CStart t = 1.
Proof.
  intros t. pose proof (run_shape_fresh w fs) as Hs. fold t in Hs.
  pose proof (shape_census _ _ Hs) as Hc.
  destruct Hs as [| | |r evs Hr].
  - split_and!; [| |done..]; split; try done;
      intros H; apply list_elem_of_singleton in H; discriminate.
  - split_and!; [| | |done]; try (split; [done|]); intros H;
      try (exfalso; apply H); rewrite !elem_of_cons; auto.
  - split_and!; [| | |done]; try (split; [done|]); intros H;
      try (exfalso; apply H); rewrite !elem_of_cons; auto.
  - assert (scope_exits ((Returned <$> setup) ++ evs ++ [Returned CClose; Returned CStop]) = 1)
      as Hexit.
    { pose proof (ran_outcome _ _ _ script_in_region Hr) as Hx.
      destruct r as [[]|[]]; simpl in Hx; tauto. }
    assert (Returned CStart
              ∈ (Returned <$> setup) ++ evs ++ [Returned CClose; Returned CStop]) as Hin.
    { simpl. rewrite !elem_of_cons. auto. }
    split_and!.
    + split; [intros _|done].
      rewrite (assoc_L (++)), (assoc_L (++) _ [Returned CClose] [Returned CStop]).
      apply last_snoc.
    + done.
    + done.
    + unfold issued. rewrite !filter_app.
      pose proof (ran_region _ _ _ script_in_region Hr) as Hreg.
      assert (filter (λ ev, ev_call ev = CStart) evs = []) as ->; [|done].
      clear -Hreg. induction Hreg as [|ev evs Hev _ IH]; [done|].
      rewrite filter_cons_False; [done|]. intros Heq. rewrite Heq in Hev. discriminate.
Qed.

End Scopes.

Lemma launch_failure_only_leaves_scope_witness :
  Threw (CLaunch true) LaunchError ∈ st_trace (run (E:=Sim.env) Sim.no_browser ∅).2
  ∧ acquired (st_trace (run (E:=Sim.env) Sim.no_browser ∅).2) = 0.
Proof.
  assert (Threw (CLaunch true) LaunchError
            ∈ st_trace (run (E:=Sim.env) Sim.no_browser ∅).2) as Hin.
  { apply (bool_decide_unpack _). vm_compute. exact I. }
  split; [exact Hin|].
  destruct (launch_failure_only_leaves_scope (E:=Sim.env) Sim.no_browser ∅ _ _ Hin)
    as (_ & _ & Ha & _).
  exact Ha.
Defined.

(** ** The disk on every exit *)
Section Disk_always.

Lemma put_all_lookup_notin ws (fs : gmap string image) p :
  p ∉ ws.*1 → put_all ws fs !! p = fs !! p.
Proof.
  revert fs. induction ws as [|[q i] ws IH]; intros fs Hp; [done|].
  rewrite fmap_cons, not_elem_of_cons in Hp. destruct Hp as [Hq Hp].
  change (put_all ((q, i) :: ws) fs) with (put_all ws (<[q:=i]> fs)).
  rewrite (IH _ Hp). by apply lookup_insert_ne.
Qed.

(** What a written path holds is decided by the writes alone. *)
Lemma put_all_lookup_in ws (fs fs' : gmap string image) p :
  p ∈ ws.*1 → is_Some (put_all ws fs !! p) ∧ put_all ws fs !! p = put_all ws fs' !! p.
Proof.
  revert fs fs'. induction ws as [|[q i] ws IH]; intros fs fs' Hp.
  { by apply elem_of_nil in Hp. }
  change (put_all ((q, i) :: ws) fs) with (put_all ws (<[q:=i]> fs)).
  change (put_all ((q, i) :: ws) fs') with (put_all ws (<[q:=i]> fs')).
  destruct (decide (p ∈ ws.*1)) as [Hin|Hnotin]; [by apply IH|].
  rewrite fmap_cons, elem_of_cons in Hp. destruct Hp as [->|Hp]; [|done].
  rewrite !(put_all_lookup_notin ws _ _ Hnotin). simpl.
  rewrite !lookup_insert_eq. split; [by eexists | done].
Qed.


(** In the log of a failed run the screenshots written are the first few of
    the four, and never all of them. *)
Lemma failed_run_written pre c rest e :
  script = pre ++ c :: rest →
  ∃ k, k ≤ 3 ∧ written ((Returned <$> (setup ++ pre))
                         ++ [Threw c e; Returned CClose; Returned CStop])
               = take k shot_paths.
Proof.
  unfold script. intros H.
  do 11 (destruct pre as [|? pre]; simplify_eq/=;
         [first [by exists 0; split; [lia|] | by exists 1; split; [lia|]
                | by exists 2; split; [lia|] | by exists 3; split; [lia|] ]|]).
  by destruct pre.
Qed.

Lemma shape_written r t :
  run_shape r t →
  ∃ k, k ≤ 4 ∧ written t = take k shot_paths ∧ (k = 4 ↔ r = Ok ()).
Proof.
  intros Hs. destruct Hs as [| | |r evs Hr];
    try (exists 0; split_and!; [lia | done | split; [lia | done]]).
  destruct r as [[]|e].
  - apply ran_ok_inv in Hr as ->. exists 4. split_and!; [lia | reflexivity | done].
  - destruct (ran_raised_inv _ _ _ Hr) as (pre & c & rest & Hsc & _ & ->).
    destruct (failed_run_written pre c rest e Hsc) as (k & Hk & Hw).
    exists k. split_and!; [lia | | split; [lia | done]]. rewrite <- Hw.
    by rewrite fmap_app, <- !app_assoc.
Qed.


End Disk_always.

Section Disk_extras.

Context {E : Env}.

(** Over any disk a run takes the same course; its disk is the initial one
    with the run's writes applied. *)
Lemma run_disk (w : world E) fs :
  ∃ ws, ws.*1 = written (st_trace (run w fs).2)
        ∧ ∀ fs0, st_fs (run w fs0).2 = put_all ws fs0
                 ∧ (run w fs0).1 = (run w fs).1
                 ∧ st_trace (run w fs0).2 = st_trace (run w fs).2.
Proof.
  destruct (run_writes w) as (ws & Hfs & Hw). exists ws. split.
  - by rewrite (Hfs fs).
  - intros fs0. by rewrite (Hfs fs0), (Hfs fs).
Qed.



(** X6: exit status 0 is a guarantee about the disk: all four screenshot
    files exist when the script has exited with status 0. *)
Theorem zero_status_means_four_files (w : world E) (fs : gmap string image)
    (argv : list string) (environ : gmap string string) :
  (module_main E "__main__" argv environ (fresh w fs)).1 = 0%Z →
  Forall (λ p, is_Some (st_fs (module_main E "__main__" argv environ (fresh w fs)).2 !! p))
    shot_paths.
Proof.
  unfold module_main. rewrite bool_decide_eq_true_2 by done.
  fold (run w fs). intros Hst.
  assert ((run w fs).1 = Ok () ∧
          (let (o, s') := run w fs in
           match o with Ok _ => (0%Z, s') | Raised _ => (1%Z, s') end).2
          = (run w fs).2) as [Hok ->].
  { destruct (run w fs) as [[[]|e] s']; simpl in *; [done | discriminate]. }
  destruct (run_disk w fs) as (ws & Hws & Hfs).
  destruct (Hfs fs) as (Hdisk & _ & _).
  pose proof (proj1 (shape_ok_iff _ _ (run_shape_fresh w fs)) Hok) as Ht.
  rewrite Ht in Hws. change (written (Returned <$> complete_run)) with shot_paths in Hws.
  rewrite Hdisk. apply Forall_forall. intros p Hp.
  apply put_all_lookup_in with (fs' := fs). by rewrite Hws.
Qed.

(** X7: a complete run erases what any earlier run left: run after another
    run, of any outcome, it leaves the same disk as it would have left
    without that earlier run. *)
Theorem complete_run_erases_earlier_run (w1 w2 : world E) (fs : gmap string image) :
  (run w2 fs).1 = Ok () →
  st_fs (run w2 (st_fs (run w1 fs).2)).2 = st_fs (run w2 fs).2.
Proof.
  intros Hok.
  destruct (run_disk w2 fs) as (ws2 & Hws2 & Hfs2).
  destruct (run_disk w1 fs) as (ws1 & Hws1 & Hfs1).
  pose proof (proj1 (shape_ok_iff _ _ (run_shape_fresh w2 fs)) Hok) as Ht.
  rewrite Ht in Hws2. change (written (Returned <$> complete_run)) with shot_paths in Hws2.
  destruct (shape_written _ _ (run_shape_fresh w1 fs)) as (k & _ & Hw1 & _).
  rewrite Hw1 in Hws1.
  destruct (Hfs2 (st_fs (run w1 fs).2)) as (-> & _ & _).
  destruct (Hfs2 fs) as (-> & _ & _).
  destruct (Hfs1 fs) as (-> & _ & _).
  apply map_eq. intros p.
  destruct (decide (p ∈ shot_paths)) as [Hin|Hnot].
  - apply put_all_lookup_in. by rewrite Hws2.
  - assert (p ∉ ws2.*1) as Hn2 by (by rewrite Hws2).
    assert (p ∉ ws1.*1) as Hn1.
    { rewrite Hws1. intros Hp. apply Hnot. by apply (subseteq_take k). }
    by rewrite !(put_all_lookup_notin ws2 _ _ Hn2), (put_all_lookup_notin ws1 _ _ Hn1).
Qed.

End Disk_extras.


Lemma zero_status_means_four_files_witness :
  (module_main Sim.env "__main__" [] ∅ (fresh (E:=Sim.env) (Sim.healthy 2 1) ∅)).1 = 0%Z
  ∧ Forall (λ p, is_Some (st_fs (module_main Sim.env "__main__" [] ∅
                                   (fresh (E:=Sim.env) (Sim.healthy 2 1) ∅)).2 !! p))
      shot_paths.
Proof.
  assert ((module_main Sim.env "__main__" [] ∅
             (fresh (E:=Sim.env) (Sim.healthy 2 1) ∅)).1 = 0%Z) as H.
  { vm_compute. reflexivity. }
  split; [exact H|].
  exact (zero_status_means_four_files (E:=Sim.env) (Sim.healthy 2 1) ∅ [] ∅ H).
Defined.

Lemma complete_run_erases_earlier_run_witness :
  (run (E:=Sim.env) (Sim.healthy 2 1) ∅).1 = Ok ()
  ∧ st_fs (run (E:=Sim.env) (Sim.healthy 2 1)
             (st_fs (run (E:=Sim.env) Sim.full_disk ∅).2)).2
    = st_fs (run (E:=Sim.env) (Sim.healthy 2 1) ∅).2.
Proof.
  assert ((run (E:=Sim.env) (Sim.healthy 2 1) ∅).1 = Ok ()) as H.
  { vm_compute. reflexivity. }
  split; [exact H|].
  exact (complete_run_erases_earlier_run (E:=Sim.env) Sim.full_disk (Sim.healthy 2 1) ∅ H).
Defined.

(** ** What gets clicked *)
Section Clicks.

Context {E : Env}.
Implicit Types (s : state E).

(** Each click that returned went to a control its locator matches, and a
    list of calls that returned made all its clicks. *)
Lemma perform_all_clicks cs s :
  ∃ hs, st_hits (perform_all cs s).2 = st_hits s ++ hs
        ∧ Forall2 (λ c l, ∃ page_dom, c ∈ resolve l page_dom)
            hs (take (length hs) (clicked_by cs))
        ∧ ((perform_all cs s).1 = Ok () → length hs = length (clicked_by cs)).
Proof.
  revert s. induction cs as [|c cs IH]; intros s.
  { exists []. simpl. rewrite app_nil_r. split_and!; [done | constructor | done]. }
  assert ((∃ l, c = CClick l) ∨ ¬ ∃ l, c = CClick l) as [[l ->]|Hno].
  { destruct c; first [by left; eexists | right; intros [? [=]]]. }
  - simpl. unfold mbind, M_bind, click.
    destruct (resolve l (dom E (st_world s))) as [|x [|x' xs]] eqn:Hres.
    + exists []. simpl. rewrite app_nil_r. split_and!; [done | constructor | done].
    + destruct (IH (log E (Returned (CClick l))
                      (hit E x (set_world E (env_activate E x (st_world s)) s))))
        as (hs & Hh & Hall & Hlen).
      exists (x :: hs). split_and!.
      * rewrite Hh. simpl. by rewrite <- app_assoc.
      * simpl. constructor; [|done]. exists (dom E (st_world s)).
        rewrite Hres. apply list_elem_of_singleton. done.
      * intros Hok. simpl. by rewrite (Hlen Hok).
    + exists []. simpl. rewrite app_nil_r. split_and!; [done | constructor | done].
  - assert (clicked_by (c :: cs) = clicked_by cs) as ->.
    { destruct c; try done. destruct Hno. by eexists. }
    destruct (perform_hits c s) as [_ Hsame].
    assert (st_hits (perform c s).2 = st_hits s) as Hc.
    { apply Hsame. intros l ->. apply Hno. by eexists. }
    simpl. unfold mbind, M_bind.
    destruct (perform c s) as [[[]|e] s1]; simpl in Hc.
    + destruct (IH s1) as (hs & Hh & Hall & Hlen).
      exists hs. rewrite Hh, Hc. done.
    + exists []. simpl. rewrite app_nil_r, Hc.
      split_and!; [done | constructor | done].
Qed.

Lemma resolve_role_matches role name page_dom c :
  c ∈ resolve (GetByRole role name) page_dom → c_role c = role ∧ c_name c = name.
Proof.
  simpl. intros [Hm _]%list_elem_of_filter. unfold matches_role in Hm.
  apply andb_prop in Hm as [H1 H2].
  split; by eapply bool_decide_eq_true_1.
Qed.

Lemma resolve_first_matches l page_dom c :
  c ∈ resolve (First l) page_dom → c ∈ resolve l page_dom.
Proof. simpl. apply subseteq_take. Qed.

(** X8: on every exit the run has clicked at most two controls: first a
    control with role button and accessible name Edit, then a control with
    role button and accessible name Update Expense; a complete run has
    clicked exactly two.  Nothing else on the page is ever clicked. *)
Theorem only_edit_then_update_clicked (w : world E) (fs : gmap string image) :
  let h := st_hits (run w fs).2 in
  length h ≤ 2
  ∧ (∀ c, h !! 0 = Some c → c_role c = "button" ∧ c_name c = "Edit")
  ∧ (∀ c, h !! 1 = Some c → c_role c = "button" ∧ c_name c = "Update Expense")
  ∧ ((run w fs).1 = Ok () → length h = 2).
Proof.
  intros h. subst h. unfold run.
  destruct (env_start E w) as [[] w1] eqn:H1.
  2:{ rewrite (run_no_driver (fresh w fs) w1 H1). simpl.
      split_and!; [lia | done..]. }
  destruct (env_launch E true w1) as [[] w2] eqn:H2.
  2:{ rewrite (run_no_browser (fresh w fs) w1 w2 H1 H2). simpl.
      split_and!; [lia | done..]. }
  destruct (env_new_page E w2) as [[] w3] eqn:H3.
  2:{ rewrite (run_no_page (fresh w fs) w1 w2 w3 H1 H2 H3). simpl.
      split_and!; [lia | done..]. }
  pose proof (run_guarded (fresh w fs) w1 w2 w3 H1 H2 H3) as Hrun.
  cbv zeta in Hrun. rewrite Hrun. clear Hrun. cbn [fst snd].
  rewrite teardown_hits.
  match goal with |- context [perform_all script ?s3] =>
    destruct (perform_all_clicks script s3) as (hs & Hh & Hall & Hlen);
    rewrite Hh; clear Hh; destruct (perform_all script s3) as [r s4] end.
  cbn [fst snd] in *. simpl.
  change (clicked_by script) with [edit_locator; update_locator] in *.
  destruct hs as [|c0 [|c1 [|c2 hs]]]; simpl in *.
  - split_and!; [lia | done | done |]. intros Hok. by specialize (Hlen Hok).
  - apply Forall2_cons in Hall as [[d Hc0] _].
    apply resolve_first_matches, resolve_role_matches in Hc0.
    split_and!; [lia | by intros c [= <-] | done |].
    intros Hok. by specialize (Hlen Hok).
  - apply Forall2_cons in Hall as [[d Hc0] Hall].
    apply Forall2_cons in Hall as [[d' Hc1] _].
    apply resolve_first_matches, resolve_role_matches in Hc0.
    apply resolve_role_matches in Hc1.
    split_and!; [lia | by intros c [= <-] | by intros c [= <-] | done].
  - exfalso. apply Forall2_length in Hall. simpl in Hall. lia.
Qed.

End Clicks.
